(** * New England airports dashboard ([final.py])

    A shallow embedding of the script's load / coerce / filter / derive /
    aggregate pipeline, and the properties its specification states.

    Conventions of the embedding.
    - A pandas [DataFrame] is the list of its rows, in index order.
    - A float64 value is [nan] or a finite number [fin q], [q] a rational
      ([Qc], so that equal numbers are equal terms).  Comparisons, minimum
      and maximum are exact, as they are on binary64; sums, products and
      quotients are rounded to the nearest binary64 value, ties to even
      ([fl]).  Infinities, and so overflow, are not represented.
    - A cell of the [elevation_ft] column as [read_csv] may deliver it is a
      float or, when the column did not parse as numeric, a Python [str].
    - Python exceptions are values of [exn]; code that may raise returns a
      [result].  The Streamlit calls are events appended to an output log,
      which starts empty on every run; [st.set_page_config] raises unless it
      is the first of them (the rule of Streamlit 1.45 and before).
    - The [scheduled_service] column holds strings; types, names and
      municipalities, coordinates and region codes may be missing.
    - Three library routines are parameters of the script: Python's
      [float] on a string, the search [Series.str.contains], which may
      raise, and [sort_values], whose row order is constrained by what
      pandas documents of it. *)

From Stdlib Require Import QArith Qcanon Qround Qpower.
From Stdlib Require Import Floats.SpecFloat.
From stdpp Require Import base option list numbers strings gmap sorting.

Local Open Scope Qc_scope.

(** ** Values *)

Inductive float64 : Type :=
| nan
| fin (q : Qc).

Inductive cell : Type :=
| CNum (x : float64)
| CStr (s : string).

Inductive exn : Type :=
| ValueError (s : string)   (* could not convert string to float: s *)
| TypeError                 (* '>=' not supported between 'str' and 'int' *)
| StreamlitAPIException     (* set_page_config() must be the first command *)
| ReError (pat : string)    (* re.error: pat is not a regular expression *)
| AttributeError.           (* .str on a column that holds no string *)

Inductive result (A : Type) : Type :=
| Ok (a : A)
| Raise (e : exn).
Arguments Ok {A} a.
Arguments Raise {A} e.

Definition is_Ok {A} (r : result A) : Prop :=
  match r with Ok _ => True | Raise _ => False end.

#[global] Instance is_Ok_dec {A} (r : result A) : Decision (is_Ok r).
Proof. destruct r; simpl; apply _. Defined.

Inductive level : Type := Low | Medium | High.

#[global] Instance float64_eq_dec : EqDecision float64.
Proof. solve_decision. Defined.
#[global] Instance cell_eq_dec : EqDecision cell.
Proof. solve_decision. Defined.
#[global] Instance level_eq_dec : EqDecision level.
Proof. solve_decision. Defined.

Definition Z2Qc (z : Z) : Qc := Q2Qc (inject_Z z).

(** [x >= m] for a float [x] and a Python int [m]: false on NaN. *)
Definition float_ge (x : float64) (m : Z) : bool :=
  match x with
  | fin q => bool_decide (Z2Qc m ≤ q)
  | nan => false
  end.

(** IEEE comparison of two floats, as a proposition: false when either side
    is NaN. *)
Definition fle (x y : float64) : Prop :=
  match x, y with
  | fin a, fin b => a ≤ b
  | _, _ => False
  end.

Definition notnull {A} (o : option A) : Prop := is_Some o.

(** ** Binary64 arithmetic *)

(** The nearest integer, ties to even. *)
Definition round_half_even (q : Q) : Z :=
  let f := Qfloor q in
  match (q - inject_Z f ?= 1 # 2)%Q with
  | Lt => f
  | Gt => (f + 1)%Z
  | Eq => if Z.even f then f else (f + 1)%Z
  end.

(** [2 ^ k], for any integer [k]. *)
Definition pow2 (k : Z) : Q := (2 ^ k)%Q.

(** The binade of a positive rational: the [k] with [2^k <= q < 2^(k+1)]. *)
Definition binade (q : Q) : Z :=
  let k := (Z.log2 (Qnum q) - Z.log2 (Zpos (Qden q)))%Z in
  if Qle_bool (pow2 k) q then k else (k - 1)%Z.

(** Rounding to binary64, to nearest and ties to even: 53 significant bits,
    and no spacing finer than [2^-1074]. *)
Definition fl_nonneg (q : Q) : Q :=
  let e := Z.max (binade q - 52) (-1074) in
  (inject_Z (round_half_even (q * pow2 (- e))) * pow2 e)%Q.

Definition flQ (q : Q) : Q :=
  if Qle_bool 0 q then fl_nonneg q else (- fl_nonneg (- q))%Q.

Definition fl (q : Qc) : Qc := Q2Qc (flQ q).

(** The finite values of the Standard Library's model of IEEE 754
    ([SpecFloat]) as rationals, and its binary64 operations (53 bits of
    precision, exponents below 1024), to check [fl] against. *)
Definition SF2Qc (x : spec_float) : option Qc :=
  match x with
  | S754_zero _ => Some 0
  | S754_finite s m e =>
      Some (Q2Qc ((if s then - 1 else 1) * inject_Z (Z.pos m) * pow2 e)%Q)
  | S754_infinity _ | S754_nan => None
  end.

Definition b64_of_pos (n : positive) : spec_float := S754_finite false n 0.
Definition b64_add : spec_float → spec_float → spec_float := SFadd 53 1024.
Definition b64_mul : spec_float → spec_float → spec_float := SFmul 53 1024.
Definition b64_div : spec_float → spec_float → spec_float := SFdiv 53 1024.

(** ** Rows *)

(** The columns of [airports.csv] the script reads.  [E] is the type of the
    [elevation_ft] cells: [cell] as loaded, [float64] once every cell is
    known to be a number. *)
Record csv_row (E : Type) : Type := CsvRow {
  name : option string;
  municipality : option string;
  type : option string;
  iso_region : option string;
  latitude_deg : option Qc;
  longitude_deg : option Qc;
  elevation_ft : E;
  scheduled_service : string
}.
Arguments CsvRow {E}.
Arguments name {E}.
Arguments municipality {E}.
Arguments type {E}.
Arguments iso_region {E}.
Arguments latitude_deg {E}.
Arguments longitude_deg {E}.
Arguments elevation_ft {E}.
Arguments scheduled_service {E}.

(** A row of [df] once the [State] column has been added. *)
Record airport (E : Type) : Type := Airport {
  row :> csv_row E;
  State : option string
}.
Arguments Airport {E}.
Arguments row {E}.
Arguments State {E}.

Definition set_elevation {E F} (a : airport E) (x : F) : airport F :=
  Airport (CsvRow (name a) (municipality a) (type a) (iso_region a)
                  (latitude_deg a) (longitude_deg a) x (scheduled_service a))
          (State a).

(** ** Loader (lines 8-27) *)

Definition state_names_items : list (string * string) :=
  [ ("US-CT", "Connecticut");
    ("US-ME", "Maine");
    ("US-MA", "Massachusetts");
    ("US-NH", "New Hampshire");
    ("US-RI", "Rhode Island");
    ("US-VT", "Vermont") ].

Definition state_names : gmap string string := list_to_map state_names_items.

(** [df.dropna(subset=['latitude_deg', 'longitude_deg', 'iso_region'])] *)
Definition dropna_required {E} (rows : list (csv_row E)) : list (csv_row E) :=
  filter (λ r, notnull (latitude_deg r) ∧ notnull (longitude_deg r)
               ∧ notnull (iso_region r)) rows.

(** [df['State'] = df['iso_region'].map(state_names)]: a code the dict does
    not hold maps to a null. *)
Definition map_state {E} (r : csv_row E) : airport E :=
  Airport r (iso_region r ≫= (state_names !!.)).

(** [df = df[df['State'].notnull()]] *)
Definition load {E} (rows : list (csv_row E)) : list (airport E) :=
  filter (λ a, notnull (State a)) (map_state <$> dropna_required rows).

(** ** Helpers of the script (lines 30-38) *)

Definition filter_scheduled {E} (data : list (airport E)) (scheduled : bool)
  : list (airport E) :=
  if scheduled then filter (λ a : airport E, scheduled_service a = "yes") data
  else data.

(** pandas reductions skip NaN; over no value at all they give NaN. *)
Definition present (col : list float64) : list Qc :=
  omap (λ x, match x with fin q => Some q | nan => None end) col.

Definition Qc_min (a b : Qc) : Qc := if decide (a ≤ b) then a else b.
Definition Qc_max (a b : Qc) : Qc := if decide (a ≤ b) then b else a.
Definition Qc_sum (qs : list Qc) : Qc := foldr Qcplus 0 qs.

(** The sum of a float64 column as it is computed: every addition rounds.
    The values are added from the first to the last; on a long column the
    library may group the additions differently, which changes neither a sum
    that is exact nor the sum of values that are all equal. *)
Definition fl_sum (qs : list Qc) : Qc := foldl (λ s x, fl (s + x)) 0 qs.

Definition Zsum (zs : list Z) : Z := foldr Z.add 0%Z zs.

Definition col_min (col : list float64) : float64 :=
  match present col with
  | [] => nan
  | q :: qs => fin (foldl Qc_min q qs)
  end.

Definition col_max (col : list float64) : float64 :=
  match present col with
  | [] => nan
  | q :: qs => fin (foldl Qc_max q qs)
  end.

Definition col_mean (col : list float64) : float64 :=
  match present col with
  | [] => nan
  | qs => fin (fl (fl_sum qs / Z2Qc (Z.of_nat (length qs))))
  end.

(** [data['elevation_ft']] *)
Definition elevation_col {E} (data : list (airport E)) : list E :=
  (λ a : airport E, elevation_ft a) <$> data.

Definition elevation_stats (data : list (airport float64))
  : float64 * float64 * float64 :=
  (col_min (elevation_col data), col_max (elevation_col data),
   col_mean (elevation_col data)).

(** ** Widgets (lines 55-64, 140, 145)

    The values the user has chosen; the script reads them on every run. *)
Record widgets : Type := Widgets {
  state : string;
  show_scheduled : bool;
  min_elevation : Z;
  airport_types : list (option string);
  row_num : nat;
  search_term : string
}.

(** [Series.unique()]: the distinct values, in order of first appearance. *)
Fixpoint unique {A} `{EqDecision A} (l : list A) : list A :=
  match l with
  | [] => []
  | x :: l' => x :: filter (λ y, y ≠ x) (unique l')
  end.

(** The options of the state select box and of the type multi-select. *)
Definition state_options : list string := state_names_items.*2.

(** [df['type'].unique()]: a missing type is one of the values. *)
Definition airport_type_options {E} (df : list (airport E))
  : list (option string) :=
  unique ((λ a : airport E, type a) <$> df).

(** [Series.nunique()]: the number of distinct values, missing ones apart. *)
Definition nunique (col : list (option string)) : nat :=
  length (unique (omap id col)).

(** Line 47: the names that are strings. *)
Definition airport_names {E} (df : list (airport E)) : list string :=
  omap (λ a : airport E, name a) df.

(** ** Filter stage (lines 67-80) *)

Definition filter_state {E} (df : list (airport E)) (st : string)
  : list (airport E) :=
  filter (λ a, State a = Some st) df.

(** Line 74, [filtered[filtered['elevation_ft'] >= min_elevation]].  The
    comparison is evaluated on every row of the frame: on a [str] cell Python
    raises [TypeError]; on NaN it is false.  The rows that are kept hold
    numbers. *)
Fixpoint filter_elevation (data : list (airport cell)) (m : Z)
  : result (list (airport float64)) :=
  match data with
  | [] => Ok []
  | a :: data' =>
      match elevation_ft a with
      | CStr _ => Raise TypeError
      | CNum x =>
          match filter_elevation data' m with
          | Raise e => Raise e
          | Ok kept =>
              Ok (if float_ge x m then set_elevation a x :: kept else kept)
          end
      end
  end.

(** Line 77, [isin]: a missing type is matched by a missing value among
    the selected ones. *)
Definition filter_type {E} (data : list (airport E))
    (types : list (option string)) : list (airport E) :=
  filter (λ a : airport E, type a ∈ types) data.

(** [filtered.dropna(subset=['latitude_deg', 'longitude_deg'])] *)
Definition dropna_coords {E} (data : list (airport E)) : list (airport E) :=
  filter (λ a : airport E, notnull (latitude_deg a) ∧ notnull (longitude_deg a))
         data.

(** The filter stage as one function (lines 67-80; line 71 apart). *)
Definition filter_stage (df : list (airport cell)) (w : widgets)
  : result (list (airport float64)) :=
  let filtered := filter_state df (state w) in
  let filtered := filter_scheduled filtered (show_scheduled w) in
  match filter_elevation filtered (min_elevation w) with
  | Raise e => Raise e
  | Ok filtered =>
      let filtered := filter_type filtered (airport_types w) in
      Ok (dropna_coords filtered)
  end.

(** A row that holds a number, read back as a row of the loaded frame. *)
Definition as_cells (a : airport float64) : airport cell :=
  set_elevation a (CNum (elevation_ft a)).

(** The cell is a float (possibly NaN), not a [str]. *)
Definition numeric (a : airport cell) : Prop :=
  ∃ x, elevation_ft a = CNum x.

(** Line 71: [filter_scheduled(df)], the default [scheduled=True]. *)
Definition filtered_all {E} (df : list (airport E)) : list (airport E) :=
  filter_scheduled df true.

(** ** Derivation and aggregation (lines 92-103) *)

Definition elevation_level (row : airport float64) : level :=
  if float_ge (elevation_ft row) 2000 then High
  else if float_ge (elevation_ft row) 1000 then Medium
  else Low.

(** The categories in increasing order, to state monotonicity. *)
Definition level_rank (l : level) : nat :=
  match l with Low => 0 | Medium => 1 | High => 2 end.

(** [filtered.groupby('type').size()]: one counter per type met; a row
    whose type is missing belongs to no group. *)
Definition groupby_type_size {E} (data : list (airport E)) : gmap string nat :=
  foldr (λ (a : airport E) m,
           match type a with
           | Some t => <[t := S (default 0%nat (m !! t))]> m
           | None => m
           end)
        ∅ data.

(** The sum of the counters of a grouping. *)
Definition total_count (m : gmap string nat) : nat :=
  map_fold (λ _ c acc, c + acc)%nat 0%nat m.

(** The rows of a frame whose type is not missing. *)
Definition with_type {E} (data : list (airport E)) : list (airport E) :=
  filter (λ a : airport E, notnull (type a)) data.

(** The rows of a frame that have a given type. *)
Definition rows_of_type {E} (t : string) (data : list (airport E))
  : list (airport E) :=
  filter (λ a : airport E, type a = Some t) data.

(** [.reset_index(name='count')]: the rows (type, count), by type. *)
Definition reset_index (m : gmap string nat) : list (string * nat) :=
  merge_sort (λ x y : string * nat, String.leb x.1 y.1) (map_to_list m).

(** [round(x, ndigits)] on the [numpy.float64] that [mean()] returns (lines
    89 and 201): numpy multiplies by [10 ** ndigits], rounds to the nearest
    integer, ties to even, and divides again, each step in binary64. *)
Definition py_round (x : float64) (ndigits : nat) : float64 :=
  match x with
  | nan => nan
  | fin q =>
      let scale := Z2Qc (10 ^ Z.of_nat ndigits) in
      fin (fl (Z2Qc (round_half_even (fl (q * scale))) / scale))
  end.

Definition of_option (o : option Qc) : float64 :=
  match o with Some q => fin q | None => nan end.

(** ** Output surface *)

Inductive event : Type :=
| st_error (msg : string) (e : exn)
| st_set_page_config (page_title layout : string)
| st_sidebar_title (s : string)
| st_sidebar_write (s : string)
| st_selectbox (label : string) (options : list string)
| st_checkbox (label : string)
| st_slider (label : string) (lo hi default : Z)
| st_multiselect (label : string) (options default : list (option string))
| st_text_input (label : string)
| st_write_ft (label : string) (v : float64)
| st_write_sample (nm city : option string)
| st_write_count (label : string) (n : nat)
| st_write_float (label : string) (v : float64)
| st_subheader (title : string)
| st_bar_chart (counts : list (string * nat))
| altair_pie (counts : list (string * nat))
| altair_line (points : list (option string * float64))
| plotly_box (points : list (option string * float64))
| st_dataframe_table
    (rows : list (option string * option string * option string * float64
                  * string))
| st_dataframe_search
    (rows : list (option string * option string * option string))
| pydeck_chart (view : float64 * float64)
    (map_data : list (option Qc * option Qc * option string * option string
                      * float64)).

(** A run of the script: the events shown so far, and a value or the
    exception that ended the run. *)
Definition run (A : Type) : Type := list event → list event * result A.

Definition ret {A} (a : A) : run A := λ log, (log, Ok a).

Definition bind {A B} (c : run A) (k : A → run B) : run B :=
  λ log, match c log with
         | (log', Ok a) => k a log'
         | (log', Raise e) => (log', Raise e)
         end.

Definition emit (e : event) : run unit := λ log, (log ++ [e], Ok ()).

(** [st.set_page_config]: it must be the first Streamlit command of the run,
    and raises when something has been shown already. *)
Definition set_page_config (page_title layout : string) : run unit :=
  λ log, match log with
         | [] => ([st_set_page_config page_title layout], Ok ())
         | _ :: _ => (log, Raise StreamlitAPIException)
         end.

Definition lift {A} (r : result A) : run A := λ log, (log, r).

(** [try: c except Exception as e: h e] *)
Definition try_except {A} (c : run A) (h : exn → run A) : run A :=
  λ log, match c log with
         | (log', Raise e) => h e log'
         | finished => finished
         end.

Definition when (b : bool) (c : run unit) : run unit :=
  if b then c else ret ().

#[global] Instance run_ret : MRet run := @ret.
#[global] Instance run_bind : MBind run := λ A B k c, bind c k.

(** ** Library behaviour taken as parameters *)

(** The order [sort_values(by='elevation_ft')] must respect: ascending or
    descending numbers, NaN last either way. *)
Definition key_order (ascending : bool) (x y : float64) : Prop :=
  match x, y with
  | fin a, fin b => if ascending then a ≤ b else b ≤ a
  | _, nan => True
  | nan, fin _ => False
  end.

Definition row_order (ascending : bool) (a b : airport float64) : Prop :=
  key_order ascending (elevation_ft a) (elevation_ft b).

#[global] Instance key_order_dec asc : RelDecision (key_order asc).
Proof.
  intros [|a] [|b]; simpl; try apply _; destruct asc; apply _.
Defined.

#[global] Instance row_order_dec asc : RelDecision (row_order asc).
Proof. intros a b. unfold row_order. apply _. Defined.

(** What pandas promises of [sort_values] with the default [kind]
    ('quicksort', which its documentation lists as not stable): the rows of
    the frame, rearranged so that the key column is in order.  The relative
    order of rows with equal keys is not part of it. *)
Definition sort_contract
    (sort_values : bool → list (airport float64) → list (airport float64))
  : Prop :=
  ∀ ascending data,
    sort_values ascending data ≡ₚ data
    ∧ Sorted (row_order ascending) (sort_values ascending data).

(** Records with equal [elevation_ft] keep their relative order. *)
Definition stable_on (sorted data : list (airport float64)) : Prop :=
  ∀ k : float64,
    filter (λ a : airport float64, elevation_ft a = k) sorted
    = filter (λ a : airport float64, elevation_ft a = k) data.

(** A sorting kernel that meets the contract, to run statements on data: an
    insertion sort; a row goes in front of the first row that [before] lets
    it pass. *)
Fixpoint insert_row (before : airport float64 → airport float64 → bool)
    (a : airport float64) (l : list (airport float64))
  : list (airport float64) :=
  match l with
  | [] => [a]
  | b :: l' => if before a b then a :: b :: l' else b :: insert_row before a l'
  end.

Definition insertion_sort (before : airport float64 → airport float64 → bool)
    (data : list (airport float64)) : list (airport float64) :=
  foldr (insert_row before) [] data.

(** Ties stay in their original order. *)
Definition stable_sort_values (ascending : bool)
    (data : list (airport float64)) : list (airport float64) :=
  insertion_sort (λ a b, bool_decide (row_order ascending a b)) data.

Section Script.

(** Python's [float(s)] on a [str]: [None] when it raises [ValueError]. *)
Variable float_of_string : string → option float64.

(** [DataFrame.sort_values(by='elevation_ft', ascending=...)]. *)
Variable sort_values : bool → list (airport float64) → list (airport float64).

(** [filtered['name'].str.contains(pat, case=False, na=False)] in one run of
    the script.  Before any name is looked at, the call raises when the
    [name] column of the file holds no string at all ([AttributeError]) or
    when [pat] does not compile as a regular expression ([re.error]);
    otherwise it is a search on each name. *)
Variable str_contains : string → result (string → bool).

(** *** Elevation coercion (lines 41-44) *)

Definition cell_to_float (c : cell) : result float64 :=
  match c with
  | CNum x => Ok x
  | CStr s =>
      match float_of_string s with
      | Some x => Ok x
      | None => Raise (ValueError s)
      end
  end.

(** [Series.astype(float)]: a new column, or the first failure. *)
Fixpoint astype_float (col : list cell) : result (list float64) :=
  match col with
  | [] => Ok []
  | c :: col' =>
      match cell_to_float c with
      | Raise e => Raise e
      | Ok x =>
          match astype_float col' with
          | Raise e => Raise e
          | Ok xs => Ok (x :: xs)
          end
      end
  end.

(** [df['elevation_ft'] = col] *)
Definition assign_elevation (df : list (airport cell)) (col : list float64)
  : list (airport cell) :=
  zip_with (λ a x, set_elevation a (CNum x)) df col.

Definition coerce_elevation (df : list (airport cell))
  : run (list (airport cell)) :=
  try_except
    (col ← lift (astype_float (elevation_col df));
     mret (assign_elevation df col))
    (λ e, emit (st_error "Error converting elevation to float: " e);;
          mret df).

(** *** The rest of the script (lines 47-201), on the frame the coercion
    step left *)

(** Line 147; [na=False]: a missing name matches nothing. *)
Definition search_rows (filtered : list (airport float64)) (term : string)
  : result (list (airport float64)) :=
  match str_contains term with
  | Raise e => Raise e
  | Ok found =>
      Ok (filter (λ a : airport float64,
                    from_option found false (name a) = true)
                 filtered)
  end.

Definition mean_latitude (data : list (airport float64)) : float64 :=
  col_mean ((λ a : airport float64, of_option (latitude_deg a)) <$> data).

Definition mean_longitude (data : list (airport float64)) : float64 :=
  col_mean ((λ a : airport float64, of_option (longitude_deg a)) <$> data).

(** Lines 47-64: the page set-up and the input widgets. *)
Definition widgets_section (df : list (airport cell)) : run unit :=
  let airport_names := airport_names df in
  set_page_config "New England Airports" "wide";;
  emit (st_sidebar_title "About This App");;
  emit (st_sidebar_write "This is an app to explore airport data.");;
  emit (st_selectbox "Choose a New England state" state_options);;
  emit (st_checkbox "Show only airports with scheduled flights.");;
  emit (st_slider "Minimum elevation (ft)" 0 5000 0);;
  emit (st_multiselect "Select airport types to include"
          (airport_type_options df) (airport_type_options df)).

(** Lines 67-201: filter, derive, aggregate, render. *)
Definition views (df : list (airport cell)) (w : widgets)
  : run (list (airport float64 * level)) :=
  let filtered_all := filtered_all df in
  filtered ← lift (filter_stage df w);
  let filtered := sort_values false filtered in
  let '(min_elev, max_elev, avg_elev) := elevation_stats filtered in
  emit (st_write_ft "Minimum Elevation" min_elev);;
  emit (st_write_ft "Maximum Elevation" max_elev);;
  emit (st_write_ft "Average Elevation" (py_round avg_elev 2));;
  let categorized := (λ a, (a, elevation_level a)) <$> filtered in
  let type_counts := reset_index (groupby_type_size filtered) in
  mapM (λ a : airport float64,
          emit (st_write_sample (name a) (municipality a)))
       (take 1 filtered);;
  emit (st_subheader ("Types of Airports in " +:+ state w));;
  emit (st_bar_chart type_counts);;
  let nonempty := bool_decide (filtered ≠ []) in
  when nonempty (emit (altair_pie type_counts));;
  when nonempty
    (emit (st_subheader "Airport Elevations (ft)");;
     let line_data := sort_values true filtered in
     emit (altair_line
             ((λ a : airport float64, (name a, elevation_ft a))
                <$> line_data)));;
  when nonempty
    (emit (st_subheader "Elevation Distribution by Type (Plotly)");;
     emit (plotly_box
             ((λ a : airport float64, (type a, elevation_ft a))
                <$> filtered)));;
  emit (st_slider "How many airport rows to show?" 1 20 5);;
  emit (st_subheader "Airport Table");;
  emit (st_dataframe_table
          ((λ a : airport float64,
              (name a, municipality a, type a, elevation_ft a,
               scheduled_service a))
             <$> take (row_num w) filtered));;
  emit (st_text_input "Search for an airport by name");;
  (if bool_decide (search_term w ≠ "") then
     result ← lift (search_rows filtered (search_term w));
     emit (st_subheader "Search Results");;
     emit (st_dataframe_search
             ((λ a : airport float64, (name a, municipality a, type a))
                <$> result))
   else mret ());;
  (if nonempty then
     emit (st_subheader "Map of Airports");;
     let map_data :=
       (λ a : airport float64,
          (latitude_deg a, longitude_deg a, name a, municipality a,
           elevation_ft a)) <$> filtered in
     emit (pydeck_chart (mean_latitude filtered, mean_longitude filtered)
             map_data)
   else
     emit (st_subheader "No airports match the current filters."));;
  emit (st_write_count "Total airports shown:" (length filtered));;
  emit (st_write_count "Number of airport types:"
          (nunique ((λ a : airport float64, type a) <$> filtered)));;
  when nonempty
    (emit (st_write_float "Average latitude:"
             (py_round (mean_latitude filtered) 4)));;
  mret categorized.

Definition page (df : list (airport cell)) (w : widgets)
  : run (list (airport float64 * level)) :=
  widgets_section df;;
  views df w.

(** The whole script on the rows [read_csv] returned. *)
Definition script (rows : list (csv_row cell)) (w : widgets)
  : run (list (airport float64 * level)) :=
  df ← coerce_elevation (load rows);
  page df w.

End Script.

(** ** Notions used in the statements *)

Definition is_error (e : event) : Prop :=
  match e with st_error _ _ => True | _ => False end.

(** A row of the file and a row of a frame that agree on every column but
    the elevation. *)
Definition same_record {E F} (r : csv_row E) (a : airport F) : Prop :=
  name r = name a ∧ municipality r = municipality a ∧ type r = type a
  ∧ iso_region r = iso_region a ∧ latitude_deg r = latitude_deg a
  ∧ longitude_deg r = longitude_deg a
  ∧ scheduled_service r = scheduled_service a.

(** The titles of the sub-headers among the events shown. *)
Definition subheaders (shown : list event) : list string :=
  omap (λ e, match e with st_subheader title => Some title | _ => None end)
       shown.

(** The frame line 83 leaves, given what the filter stage returned, and the
    frame with its category column (line 100). *)
Definition categorize (filtered : list (airport float64))
  : list (airport float64 * level) :=
  (λ a, (a, elevation_level a)) <$> filtered.

(** What lines 50-64 show when they open the run. *)
Definition widgets_shown (df : list (airport cell)) : list event :=
  [ st_set_page_config "New England Airports" "wide";
    st_sidebar_title "About This App";
    st_sidebar_write "This is an app to explore airport data.";
    st_selectbox "Choose a New England state" state_options;
    st_checkbox "Show only airports with scheduled flights.";
    st_slider "Minimum elevation (ft)" 0 5000 0;
    st_multiselect "Select airport types to include"
      (airport_type_options df) (airport_type_options df) ].

(** The search box is empty, or the search for what it holds does not
    raise. *)
Definition searchable (str_contains : string → result (string → bool))
    (w : widgets) : Prop :=
  search_term w = "" ∨ is_Ok (str_contains (search_term w)).

#[global] Instance searchable_dec str_contains w :
  Decision (searchable str_contains w).
Proof. unfold searchable. apply _. Defined.

(** What lines 86-145 show for a sorted frame [filtered], view by view: the
    statistics first, the search box last. *)
Definition shown_before_search
    (sort_values : bool → list (airport float64) → list (airport float64))
    (filtered : list (airport float64)) (w : widgets) : list event :=
  let type_counts := reset_index (groupby_type_size filtered) in
  let nonempty := bool_decide (filtered ≠ []) in
  [ st_write_ft "Minimum Elevation" (elevation_stats filtered).1.1;
    st_write_ft "Maximum Elevation" (elevation_stats filtered).1.2;
    st_write_ft "Average Elevation" (py_round (elevation_stats filtered).2 2) ]
  ++ ((λ a : airport float64, st_write_sample (name a) (municipality a))
        <$> take 1 filtered)
  ++ [ st_subheader ("Types of Airports in " +:+ state w);
       st_bar_chart type_counts ]
  ++ (if nonempty then
        [ altair_pie type_counts;
          st_subheader "Airport Elevations (ft)";
          altair_line ((λ a : airport float64, (name a, elevation_ft a))
                         <$> sort_values true filtered);
          st_subheader "Elevation Distribution by Type (Plotly)";
          plotly_box ((λ a : airport float64, (type a, elevation_ft a))
                        <$> filtered) ]
      else [])
  ++ [ st_slider "How many airport rows to show?" 1 20 5;
       st_subheader "Airport Table";
       st_dataframe_table
         ((λ a : airport float64,
             (name a, municipality a, type a, elevation_ft a,
              scheduled_service a)) <$> take (row_num w) filtered);
       st_text_input "Search for an airport by name" ].

(** What lines 146-149 show: nothing for an empty search box, the matching
    rows when the search goes through; or the exception of the search. *)
Definition shown_by_search (str_contains : string → result (string → bool))
    (filtered : list (airport float64)) (w : widgets) : result (list event) :=
  if bool_decide (search_term w ≠ "") then
    match str_contains (search_term w) with
    | Ok found =>
        Ok [ st_subheader "Search Results";
             st_dataframe_search
               ((λ a : airport float64, (name a, municipality a, type a))
                  <$> filter (λ a : airport float64,
                                from_option found false (name a) = true)
                             filtered) ]
    | Raise e => Raise e
    end
  else Ok [].

(** What lines 152-201 show. *)
Definition shown_after_search (filtered : list (airport float64))
  : list event :=
  let nonempty := bool_decide (filtered ≠ []) in
  (if nonempty then
     [ st_subheader "Map of Airports";
       pydeck_chart
         (col_mean ((λ a : airport float64, of_option (latitude_deg a))
                      <$> filtered),
          col_mean ((λ a : airport float64, of_option (longitude_deg a))
                      <$> filtered))
         ((λ a : airport float64,
             (latitude_deg a, longitude_deg a, name a, municipality a,
              elevation_ft a)) <$> filtered) ]
   else [ st_subheader "No airports match the current filters." ])
  ++ [ st_write_count "Total airports shown:" (length filtered);
       st_write_count "Number of airport types:"
         (nunique ((λ a : airport float64, type a) <$> filtered)) ]
  ++ (if nonempty then
        [ st_write_float "Average latitude:"
            (py_round
               (col_mean ((λ a : airport float64, of_option (latitude_deg a))
                            <$> filtered)) 4) ]
      else []).

(** The outcome of lines 86-201 on the sorted frame [filtered]: what is
    shown, and the categorized frame or the exception of the search. *)
Definition views_outcome
    (sort_values : bool → list (airport float64) → list (airport float64))
    (str_contains : string → result (string → bool))
    (filtered : list (airport float64)) (w : widgets)
  : list event * result (list (airport float64 * level)) :=
  match shown_by_search str_contains filtered w with
  | Ok found =>
      (shown_before_search sort_values filtered w ++ found
         ++ shown_after_search filtered,
       Ok (categorize filtered))
  | Raise e => (shown_before_search sort_values filtered w, Raise e)
  end.

(** ** Sample data *)

Definition nan_row : airport float64 :=
  Airport (CsvRow (Some "Unsurveyed Field") None (Some "small_airport")
                  (Some "US-VT")
                  (Some (Z2Qc 44)) (Some (Z2Qc (-72))) nan "no")
          (Some "Vermont").

(** A frame of one heliport without scheduled service. *)
Definition heliport_frame : list (airport cell) :=
  [ Airport (CsvRow (Some "Hospital Helipad") (Some "Hartford")
                    (Some "heliport")
                    (Some "US-CT") (Some (Z2Qc 41)) (Some (Z2Qc (-72)))
                    (CNum (fin (Z2Qc 60))) "no")
            (Some "Connecticut") ].

(** Rows as [read_csv] delivers them when the elevation column did not parse
    as numeric: every cell a [str], two of them not numbers. *)
Definition csv_field (nm : string) (region : string) (elev : cell)
  : csv_row cell :=
  CsvRow (Some nm) (Some "Keene") (Some "small_airport") (Some region)
         (Some (Z2Qc 43)) (Some (Z2Qc (-72))) elev "no".

Definition malformed_rows : list (csv_row cell) :=
  [ csv_field "Alpha Field" "US-NH" (CStr "488");
    csv_field "Bravo Field" "US-NH" (CStr "unknown");
    csv_field "Charlie Field" "US-VT" (CStr "n/a") ].

(** A [float] that reads unsigned decimal integers only: enough to run the
    coercion step on data. *)
Fixpoint parse_digits (acc : N) (s : string) : option N :=
  match s with
  | EmptyString => Some acc
  | String c s' =>
      let n := Ascii.N_of_ascii c in
      if ((48 <=? n) && (n <=? 57))%N
      then parse_digits (acc * 10 + (n - 48))%N s'
      else None
  end.

Definition float_of_digits (s : string) : option float64 :=
  match s with
  | EmptyString => None
  | _ => (λ n : N, fin (Z2Qc (Z.of_N n))) <$> parse_digits 0%N s
  end.

(** A search that takes every pattern and finds nothing, and one that
    refuses the pattern "*" (nothing to repeat), as [re.compile] does. *)
Definition never_contains (pat : string) : result (string → bool) :=
  Ok (λ _, false).

Definition star_rejecting (pat : string) : result (string → bool) :=
  if decide (pat = "*") then Raise (ReError pat) else Ok (λ _, false).

(** One Connecticut heliport at 60 ft, and a minimum elevation no row
    reaches. *)
Definition unreachable_minimum : widgets :=
  Widgets "Connecticut" false 5000 [Some "heliport"] 5 "".

Definition vermont_widgets : widgets :=
  Widgets "Vermont" false 0 [Some "small_airport"] 5 "".

(** The same with "*" typed into the search box. *)
Definition star_search : widgets :=
  Widgets "Vermont" false 0 [Some "small_airport"] 5 "*".

(** The default widget values, with Connecticut selected and every type of
    the heliport frame ticked. *)
Definition connecticut_defaults : widgets :=
  Widgets "Connecticut" false 0 [Some "heliport"] 5 "".

(** The same with the scheduled-service box ticked and a higher minimum. *)
Definition connecticut_narrowed : widgets :=
  Widgets "Connecticut" true 1000 [Some "heliport"] 5 "".

(** Rows whose elevation cells are strings that all read as numbers. *)
Definition parsable_rows : list (csv_row cell) :=
  [ csv_field "Alpha Field" "US-NH" (CStr "488");
    csv_field "Charlie Field" "US-VT" (CStr "1200") ].

(** Three Connecticut airports, as loaded and as the filter stage returns
    them under [connecticut_all]. *)
Definition ct_airport {E} (nm ty : string) (lat : Z) (elev : E)
  : airport E :=
  Airport (CsvRow (Some nm) (Some "Hartford") (Some ty) (Some "US-CT")
                  (Some (Z2Qc lat)) (Some (Z2Qc (-72))) elev "no")
          (Some "Connecticut").

Definition connecticut_frame : list (airport cell) :=
  [ ct_airport "Hospital Helipad" "heliport" 41 (CNum (fin (Z2Qc 60)));
    ct_airport "Ridge Strip" "small_airport" 42 (CNum (fin (Z2Qc 1500)));
    ct_airport "Valley Field" "small_airport" 41 (CNum (fin (Z2Qc 900))) ].

(** The rows of the file behind [connecticut_frame]. *)
Definition connecticut_rows : list (csv_row cell) :=
  (λ a : airport cell, row a) <$> connecticut_frame.

Definition connecticut_kept : list (airport float64) :=
  [ ct_airport "Hospital Helipad" "heliport" 41 (fin (Z2Qc 60));
    ct_airport "Ridge Strip" "small_airport" 42 (fin (Z2Qc 1500));
    ct_airport "Valley Field" "small_airport" 41 (fin (Z2Qc 900)) ].

(** Two Connecticut airports, one of them with no type on record, as loaded
    and as the filter stage returns them; and the widgets at their default
    values: every type of the frame is selected, the missing one included. *)
Definition untyped_airport {E} (nm : string) (elev : E) : airport E :=
  Airport (CsvRow (Some nm) (Some "Hartford") None (Some "US-CT")
                  (Some (Z2Qc 41)) (Some (Z2Qc (-72))) elev "no")
          (Some "Connecticut").

Definition untyped_frame : list (airport cell) :=
  [ ct_airport "Hospital Helipad" "heliport" 41 (CNum (fin (Z2Qc 60)));
    untyped_airport "Grass Strip" (CNum (fin (Z2Qc 300))) ].

Definition untyped_kept : list (airport float64) :=
  [ ct_airport "Hospital Helipad" "heliport" 41 (fin (Z2Qc 60));
    untyped_airport "Grass Strip" (fin (Z2Qc 300)) ].

Definition untyped_defaults : widgets :=
  Widgets "Connecticut" false 0 (airport_type_options untyped_frame) 5 "".

(** The binary64 value nearest to 0.1, and the next binary64 value above
    it. *)
Definition tenth : Qc := Q2Qc (3602879701896397 # 36028797018963968).

Definition above_tenth : Qc := Q2Qc (7205759403792795 # 72057594037927936).

(** Three Connecticut heliports, each 0.1 ft above sea level, as loaded and
    as the filter stage returns them under [connecticut_defaults]. *)
Definition tenth_frame : list (airport cell) :=
  [ ct_airport "Pier One" "heliport" 41 (CNum (fin tenth));
    ct_airport "Pier Two" "heliport" 41 (CNum (fin tenth));
    ct_airport "Pier Three" "heliport" 41 (CNum (fin tenth)) ].

Definition tenth_kept : list (airport float64) :=
  [ ct_airport "Pier One" "heliport" 41 (fin tenth);
    ct_airport "Pier Two" "heliport" 41 (fin tenth);
    ct_airport "Pier Three" "heliport" 41 (fin tenth) ].

Definition connecticut_all : widgets :=
  Widgets "Connecticut" false 0 [Some "heliport"; Some "small_airport"] 2 "".

(** * Properties *)

(** ** Loader *)

Lemma load_spec {E} (rows : list (csv_row E)) (a : airport E) :
  a ∈ load rows ↔
  ∃ code display,
    row a ∈ rows
    ∧ notnull (latitude_deg a) ∧ notnull (longitude_deg a)
    ∧ iso_region a = Some code
    ∧ state_names !! code = Some display
    ∧ State a = Some display.
Proof.
  unfold load, dropna_required, notnull. rewrite list_elem_of_filter, list_elem_of_fmap.
  split.
  - intros [[display Hd] (r & -> & Hr)].
    apply list_elem_of_filter in Hr as [(Hlat & Hlon & [code Hc]) Hr].
    simpl in *. rewrite Hc in Hd. simpl in Hd.
    exists code, display. by rewrite Hc.
  - intros (code & display & Hin & Hlat & Hlon & Hc & Hs & HS).
    split; [by rewrite HS|].
    exists (row a). split.
    + destruct a as [r s]. unfold map_state. simpl in *.
      by rewrite Hc, HS; simpl; rewrite Hs.
    + apply list_elem_of_filter. by rewrite Hc.
Qed.

Lemma state_names_lookup code display :
  (code, display) ∈ state_names_items → state_names !! code = Some display.
Proof.
  unfold state_names_items. intros H.
  repeat (apply elem_of_cons in H as [H|H]; [by inversion H|]).
  by apply elem_of_nil in H.
Qed.

(** C8.  Every record of the working set the loader builds has a latitude,
    a longitude, a region code and a state name; every code of the
    [state_names] table maps to its display name; and a row whose region code
    is not in the table is the row of no record of the working set. *)
Theorem working_set_invariant :
  (∀ E (rows : list (csv_row E)) (a : airport E),
      a ∈ load rows →
      notnull (latitude_deg a) ∧ notnull (longitude_deg a)
      ∧ notnull (iso_region a) ∧ notnull (State a))
  ∧ (∀ code display,
        (code, display) ∈ state_names_items →
        state_names !! code = Some display)
  ∧ (∀ E (rows : list (csv_row E)) (r : csv_row E) code,
        iso_region r = Some code →
        state_names !! code = None →
        ∀ a : airport E, a ∈ load rows → row a ≠ r).
Proof.
  split; [|split].
  - intros E rows a (code & display & _ & Hlat & Hlon & Hc & _ & HS)%load_spec.
    unfold notnull. rewrite Hc, HS. eauto.
  - apply state_names_lookup.
  - intros E rows r code Hr Hnone a (code' & display & _ & _ & _ & Hc & Hs & _)%load_spec <-.
    congruence.
Qed.

(** ** Filter stage *)

Lemma as_cells_set_elevation (a : airport cell) x :
  elevation_ft a = CNum x → as_cells (set_elevation a x) = a.
Proof. destruct a as [[] ?]. simpl. by intros ->. Qed.

Lemma filter_scheduled_sublist {E} (data : list (airport E)) scheduled :
  filter_scheduled data scheduled `sublist_of` data.
Proof. destruct scheduled; simpl; [apply sublist_filter | done]. Qed.

Lemma filter_scheduled_elem {E} (data : list (airport E)) scheduled
    (a : airport E) :
  a ∈ filter_scheduled data scheduled ↔
  a ∈ data ∧ (scheduled = true → scheduled_service a = "yes").
Proof.
  destruct scheduled; simpl.
  - rewrite list_elem_of_filter. split; intros [? ?]; auto.
  - split; [by intros ? | by intros [? _]].
Qed.

Lemma filter_elevation_Ok data m kept :
  filter_elevation data m = Ok kept →
  as_cells <$> kept `sublist_of` data
  ∧ ∀ a, a ∈ kept →
      as_cells a ∈ data ∧ float_ge (elevation_ft a) m = true.
Proof.
  revert kept. induction data as [|a data IH]; simpl; intros kept Hk.
  - inversion Hk. split; [done | by intros ? ?%elem_of_nil].
  - destruct (elevation_ft a) as [x|s] eqn:Ha; [|done].
    destruct (filter_elevation data m) as [kept'|e]; [|done].
    destruct (IH kept' eq_refl) as [Hsub Hall].
    destruct (float_ge x m) eqn:Hge; inversion Hk; subst kept; clear Hk.
    + split.
      * rewrite fmap_cons, (as_cells_set_elevation a x Ha). by constructor.
      * intros b [->|Hb]%elem_of_cons.
        -- rewrite (as_cells_set_elevation a x Ha). split; [left | done].
        -- destruct (Hall b Hb). split; [by right | done].
    + split; [by constructor|].
      intros b Hb. destruct (Hall b Hb). split; [by right | done].
Qed.

Lemma filter_elevation_total data m :
  Forall numeric data → ∃ kept, filter_elevation data m = Ok kept.
Proof.
  induction 1 as [|a data [x Hx] _ [kept IH]]; simpl; [by eexists|].
  rewrite Hx, IH. by eexists.
Qed.

Lemma filter_elevation_raises data m :
  (∃ kept, filter_elevation data m = Ok kept) ↔ Forall numeric data.
Proof.
  split; [|apply filter_elevation_total].
  induction data as [|a data IH]; simpl; intros [kept Hk]; [done|].
  destruct (elevation_ft a) as [x|s] eqn:Ha; [|done].
  destruct (filter_elevation data m) as [kept'|e]; [|done].
  constructor; [by exists x | eauto].
Qed.

Lemma filter_stage_Ok df w out :
  filter_stage df w = Ok out →
  ∃ kept,
    filter_elevation
      (filter_scheduled (filter_state df (state w)) (show_scheduled w))
      (min_elevation w) = Ok kept
    ∧ out = dropna_coords (filter_type kept (airport_types w)).
Proof.
  unfold filter_stage.
  destruct (filter_elevation _ _) as [kept|e]; [|done].
  intros [= <-]. by exists kept.
Qed.

(** C1.  Whatever the frame and the widget values: when every elevation cell
    is a number the filter stage returns; what it returns is a sub-sequence of
    the frame (no record is added, none is counted twice); every returned
    record has the selected [State], has [scheduled_service = "yes"] if the
    check box is ticked, has [elevation_ft >= min_elevation], has its type
    among the selected ones and has both coordinates; with no type selected
    the result is empty; and with [scheduled=False] [filter_scheduled] hands
    back its argument unchanged. *)
Theorem filter_stage_sound (df : list (airport cell)) (w : widgets) :
  (Forall numeric df → ∃ out, filter_stage df w = Ok out)
  ∧ (∀ out, filter_stage df w = Ok out →
       as_cells <$> out `sublist_of` df
       ∧ (length out ≤ length df)%nat
       ∧ ∀ a, a ∈ out →
           State a = Some (state w)
           ∧ (show_scheduled w = true → scheduled_service a = "yes")
           ∧ float_ge (elevation_ft a) (min_elevation w) = true
           ∧ type a ∈ airport_types w
           ∧ notnull (latitude_deg a) ∧ notnull (longitude_deg a))
  ∧ (airport_types w = [] → ∀ out, filter_stage df w = Ok out → out = [])
  ∧ (∀ E (data : list (airport E)), filter_scheduled data false = data).
Proof.
  split; [|split; [|split]].
  - intros Hnum. unfold filter_stage.
    destruct (filter_elevation_total
                (filter_scheduled (filter_state df (state w)) (show_scheduled w))
                (min_elevation w)) as [kept ->]; [|by eexists].
    apply Forall_forall. intros a Ha. rewrite Forall_forall in Hnum.
    apply Hnum. apply filter_scheduled_elem in Ha as [Ha _].
    by apply list_elem_of_filter in Ha as [_ Ha].
  - intros out (kept & Hk & ->)%filter_stage_Ok.
    apply filter_elevation_Ok in Hk as [Hsub Hall].
    assert (Hsub' :
      as_cells <$> dropna_coords (filter_type kept (airport_types w))
        `sublist_of` df).
    { etrans; [|etrans; [exact Hsub|]].
      - apply fmap_sublist. etrans; apply sublist_filter.
      - etrans; [apply filter_scheduled_sublist | apply sublist_filter]. }
    split; [exact Hsub'|]. split.
    { apply sublist_length in Hsub'. by rewrite length_fmap in Hsub'. }
    intros a Ha. unfold dropna_coords, filter_type in Ha.
    apply list_elem_of_filter in Ha as [[Hlat Hlon] Ha].
    apply list_elem_of_filter in Ha as [Hty Ha].
    destruct (Hall a Ha) as [Hin Hge].
    apply filter_scheduled_elem in Hin as [Hin Hsched].
    apply list_elem_of_filter in Hin as [Hst _].
    done.
  - intros Hnil out (kept & _ & ->)%filter_stage_Ok.
    unfold dropna_coords, filter_type. rewrite Hnil.
    induction kept as [|a kept IH]; [done|].
    rewrite (filter_cons_False _ a); [exact IH | apply not_elem_of_nil].
  - done.
Qed.

(** ** Categorization *)

Lemma thresholds_ordered : Z2Qc 1000 ≤ Z2Qc 2000.
Proof. by vm_compute. Qed.

Lemma elevation_level_fin (row : airport float64) q :
  elevation_ft row = fin q →
  elevation_level row =
    if decide (Z2Qc 2000 ≤ q) then High
    else if decide (Z2Qc 1000 ≤ q) then Medium else Low.
Proof.
  intros Hq. unfold elevation_level. rewrite Hq. simpl.
  by repeat case_bool_decide; repeat case_decide.
Qed.

(** C3.  [elevation_level] is defined on every row and is monotone in the
    elevation; its thresholds are inclusive: 2000 and above is High, from
    1000 up to but not including 2000 is Medium, below 1000 is Low; so 2500
    and 2000 give High, 1500 and 1000 give Medium, 500 gives Low. *)
Theorem elevation_level_thresholds :
  (∀ row : airport float64, ∃ l, elevation_level row = l)
  ∧ (∀ (row : airport float64) q,
        elevation_ft row = fin q →
        (Z2Qc 2000 ≤ q → elevation_level row = High)
        ∧ (Z2Qc 1000 ≤ q → q < Z2Qc 2000 → elevation_level row = Medium)
        ∧ (q < Z2Qc 1000 → elevation_level row = Low))
  ∧ (∀ row : airport float64,
        (elevation_ft row = fin (Z2Qc 2500) → elevation_level row = High)
        ∧ (elevation_ft row = fin (Z2Qc 2000) → elevation_level row = High)
        ∧ (elevation_ft row = fin (Z2Qc 1500) → elevation_level row = Medium)
        ∧ (elevation_ft row = fin (Z2Qc 1000) → elevation_level row = Medium)
        ∧ (elevation_ft row = fin (Z2Qc 500) → elevation_level row = Low))
  ∧ (∀ a b : airport float64,
        fle (elevation_ft a) (elevation_ft b) →
        (level_rank (elevation_level a) ≤ level_rank (elevation_level b))%nat).
Proof.
  split; [by eexists|]. split; [|split].
  - intros row q Hq. rewrite (elevation_level_fin row q Hq).
    split; [|split].
    + intros H. by rewrite decide_True.
    + intros H1 H2%Qclt_not_le. by rewrite decide_False, decide_True.
    + intros H. rewrite !decide_False; [done| |].
      * by apply Qclt_not_le.
      * apply Qclt_not_le. eapply Qclt_le_trans; [exact H|].
        apply thresholds_ordered.
  - intros row.
    repeat split; intros H; rewrite (elevation_level_fin row _ H);
      by vm_compute.
  - intros a b Hab.
    destruct (elevation_ft a) as [|qa] eqn:Ha; [done|].
    destruct (elevation_ft b) as [|qb] eqn:Hb; [done|].
    simpl in Hab.
    rewrite (elevation_level_fin a qa Ha), (elevation_level_fin b qb Hb).
    repeat case_decide; simpl; try lia.
    + exfalso. eauto using Qcle_trans.
    + exfalso. eauto using Qcle_trans.
    + exfalso. eauto using Qcle_trans.
Qed.

(** C10.  A row whose elevation is NaN is categorized "Low": both threshold
    comparisons are false on NaN, so the [else] branch is taken. *)
Theorem elevation_level_nan (row : airport float64) :
  elevation_ft row = nan →
  float_ge (elevation_ft row) 2000 = false
  ∧ float_ge (elevation_ft row) 1000 = false
  ∧ elevation_level row = Low.
Proof. intros H. unfold elevation_level. by rewrite H. Qed.

Lemma elevation_level_nan_witness :
  float_ge (elevation_ft nan_row) 2000 = false
  ∧ float_ge (elevation_ft nan_row) 1000 = false
  ∧ elevation_level nan_row = Low.
Proof. apply (elevation_level_nan nan_row). reflexivity. Defined.

(** ** Grouping by type *)

Lemma total_count_insert (m : gmap string nat) k c :
  m !! k = None → total_count (<[k:=c]> m) = (c + total_count m)%nat.
Proof.
  intros Hk. unfold total_count.
  rewrite map_fold_insert_L; [done | intros; lia | done].
Qed.

Lemma total_count_delete (m : gmap string nat) k c :
  m !! k = Some c → total_count m = (c + total_count (delete k m))%nat.
Proof.
  intros Hk. rewrite <-(insert_delete_id m k c Hk) at 1.
  apply total_count_insert, lookup_delete_eq.
Qed.

Lemma total_count_bump (m : gmap string nat) k :
  total_count (<[k:=S (default 0%nat (m !! k))]> m) = S (total_count m).
Proof.
  destruct (m !! k) as [c|] eqn:Hk; simpl.
  - rewrite <-insert_delete_eq, total_count_insert by apply lookup_delete_eq.
    rewrite (total_count_delete m k c Hk). lia.
  - by rewrite total_count_insert.
Qed.

Lemma groupby_type_size_lookup {E} (data : list (airport E)) t :
  groupby_type_size data !! t =
    match length (rows_of_type t data) with
    | O => None
    | S n => Some (S n)
    end.
Proof.
  unfold rows_of_type. induction data as [|a data IH]; simpl; [done|].
  rewrite filter_cons. destruct (type a) as [t'|].
  - destruct (decide (Some t' = Some t)) as [[= ->]|Hne].
    + rewrite lookup_insert_eq, IH. simpl. by destruct (length _).
    + rewrite lookup_insert_ne by congruence. done.
  - by rewrite decide_False.
Qed.

Lemma groupby_type_size_total {E} (data : list (airport E)) :
  total_count (groupby_type_size data) = length (with_type data).
Proof.
  unfold with_type, notnull.
  induction data as [|a data IH]; simpl; [done|].
  rewrite filter_cons. destruct (type a) as [t|].
  - rewrite decide_True by eauto. simpl. by rewrite total_count_bump, IH.
  - rewrite decide_False by (by intros []). done.
Qed.

Lemma length_filter_all {A} (P : A → Prop) `{∀ x, Decision (P x)}
    (l : list A) :
  length (filter P l) = length l ↔ ∀ x, x ∈ l → P x.
Proof.
  induction l as [|x l IH]; simpl.
  - split; [by intros _ ? ?%elem_of_nil | done].
  - rewrite filter_cons. pose proof (length_filter P l) as Hle.
    destruct (decide (P x)) as [HP|HP]; simpl.
    + split.
      * intros Hlen y [->|Hy]%elem_of_cons; [done|].
        apply IH; [lia | done].
      * intros Hall. f_equal. apply IH. intros y Hy. apply Hall. by right.
    + split; [lia|]. intros Hall. destruct HP. apply Hall. left.
Qed.

(** C6, as the script has it.  [groupby('type')] leaves out the rows whose
    type is missing: the per-type counts add up to the number of rows that
    have a type, which is the number of rows exactly when no type is
    missing; the count of a type is the number of rows of that type, so every
    row that has a type is counted once, under its own type; the keys are
    exactly the types that occur; and no count is zero. *)
Theorem groupby_type_size_counts {E} (data : list (airport E)) :
  total_count (groupby_type_size data) = length (with_type data)
  ∧ (total_count (groupby_type_size data) = length data
     ↔ ∀ a : airport E, a ∈ data → notnull (type a))
  ∧ (∀ t n, groupby_type_size data !! t = Some n →
            n = length (rows_of_type t data) ∧ (0 < n)%nat)
  ∧ (∀ t, t ∈ dom (groupby_type_size data)
          ↔ ∃ a : airport E, a ∈ data ∧ type a = Some t)
  ∧ reset_index (groupby_type_size data)
      ≡ₚ map_to_list (groupby_type_size data).
Proof.
  split; [|split; [|split; [|split]]].
  - apply groupby_type_size_total.
  - rewrite groupby_type_size_total. apply length_filter_all.
  - intros t n. rewrite groupby_type_size_lookup.
    destruct (length _); [done|]. intros [= <-]. split; [done | lia].
  - intros t. rewrite elem_of_dom, groupby_type_size_lookup.
    unfold rows_of_type. split.
    + intros Hsome.
      destruct (filter _ data) as [|a l] eqn:Hf; [by destruct Hsome|].
      assert (Ha : a ∈ filter (λ a : airport E, type a = Some t) data)
        by (rewrite Hf; left).
      apply list_elem_of_filter in Ha as [? ?]. eauto.
    + intros (a & Ha & Ht).
      assert (Hin : a ∈ filter (λ a : airport E, type a = Some t) data)
        by by apply list_elem_of_filter.
      destruct (filter _ data); [by apply elem_of_nil in Hin | by eexists].
  - apply merge_sort_Permutation.
Qed.

(** C6 as stated fails: a Connecticut heliport and an airport with no type
    on record both pass the filter stage under the default selection, which
    holds the missing type; whatever the order line 83 leaves them in, the
    frame has two rows and the counts of the grouping add up to one. *)
Lemma groupby_drops_missing_type :
  airport_types untyped_defaults = [Some "heliport"; None]
  ∧ filter_stage untyped_frame untyped_defaults = Ok untyped_kept
  ∧ length untyped_kept = 2%nat
  ∧ total_count (groupby_type_size untyped_kept) = 1%nat
  ∧ (∀ sort_values, sort_contract sort_values →
       length (sort_values false untyped_kept) = 2%nat
       ∧ total_count (groupby_type_size (sort_values false untyped_kept))
         = 1%nat)
  ∧ total_count (groupby_type_size untyped_kept) ≠ length untyped_kept.
Proof.
  split; [reflexivity|]. split; [reflexivity|]. split; [reflexivity|].
  split; [reflexivity|]. split; [|by vm_compute].
  intros sort_values Hsort. destruct (Hsort false untyped_kept) as [Hp _].
  split; [by rewrite Hp|].
  rewrite groupby_type_size_total. unfold with_type. by rewrite Hp.
Qed.

(** ** The type multi-select and [filtered_all] *)

Lemma elem_of_unique {A} `{EqDecision A} (l : list A) x :
  x ∈ unique l ↔ x ∈ l.
Proof.
  induction l as [|y l IH]; simpl; [done|].
  rewrite !elem_of_cons, list_elem_of_filter, IH.
  destruct (decide (x = y)); tauto.
Qed.

Lemma NoDup_unique {A} `{EqDecision A} (l : list A) : NoDup (unique l).
Proof.
  induction l as [|y l IH]; simpl; [constructor|].
  constructor; [|by apply NoDup_filter].
  rewrite list_elem_of_filter. by intros [? _].
Qed.

(** C7, as the script has it.  [filtered_all] is the base frame under the
    scheduled-service predicate alone, with [scheduled] at its default; the
    multi-select widget is created before any filtering, and its options (and
    its default selection) are the distinct types of the base frame [df]
    itself, a missing type included: [filtered_all] is not consulted. *)
Theorem type_options_from_base_frame
    (sort_values : bool → list (airport float64) → list (airport float64))
    (str_contains : string → result (string → bool))
    (df : list (airport cell)) (w : widgets) :
  filtered_all df = filter (λ a : airport cell, scheduled_service a = "yes") df
  ∧ page sort_values str_contains df w []
    = views sort_values str_contains df w
        [ st_set_page_config "New England Airports" "wide";
          st_sidebar_title "About This App";
          st_sidebar_write "This is an app to explore airport data.";
          st_selectbox "Choose a New England state" state_options;
          st_checkbox "Show only airports with scheduled flights.";
          st_slider "Minimum elevation (ft)" 0 5000 0;
          st_multiselect "Select airport types to include"
            (airport_type_options df) (airport_type_options df) ]
  ∧ (∀ t, t ∈ airport_type_options df
          ↔ ∃ a : airport cell, a ∈ df ∧ type a = t)
  ∧ NoDup (airport_type_options df).
Proof.
  split; [done|]. split; [|split].
  - reflexivity.
  - intros t. unfold airport_type_options.
    rewrite elem_of_unique, list_elem_of_fmap.
    split; intros (a & ? & ?); eauto.
  - apply NoDup_unique.
Qed.

(** C7 as stated fails: on a frame of one heliport without scheduled service
    the widget offers "heliport", a type that no row of [filtered_all] has. *)
Lemma type_options_not_from_filtered_all :
  Some "heliport" ∈ airport_type_options heliport_frame
  ∧ (Some "heliport" ∉ airport_type_options (filtered_all heliport_frame))
  ∧ (airport_type_options heliport_frame
     ≠ airport_type_options (filtered_all heliport_frame)).
Proof.
  split; [|split].
  - vm_compute. left.
  - vm_compute. apply not_elem_of_nil.
  - by vm_compute.
Qed.

(** ** Rounding to binary64 *)

Local Open Scope Q_scope.

Lemma round_half_even_bounds q :
  (Qfloor q ≤ round_half_even q ≤ Qfloor q + 1)%Z.
Proof.
  unfold round_half_even. destruct (_ ?= _); [destruct (Z.even _)|..]; lia.
Qed.

Lemma round_half_even_mono q1 q2 :
  q1 <= q2 → (round_half_even q1 ≤ round_half_even q2)%Z.
Proof.
  intros Hle. pose proof (Qfloor_resp_le q1 q2 Hle) as Hf.
  destruct (decide (Qfloor q1 = Qfloor q2)) as [Heq|Hne].
  - unfold round_half_even. rewrite Heq.
    destruct (q1 - inject_Z (Qfloor q2) ?= 1 # 2) eqn:H1;
      destruct (q2 - inject_Z (Qfloor q2) ?= 1 # 2) eqn:H2;
      try (destruct (Z.even _); lia); try lia; exfalso.
    + apply Qeq_alt in H1. rewrite <-Qlt_alt in H2.
      apply (Qlt_irrefl (1 # 2)). rewrite <-H1 at 1.
      eapply Qle_lt_trans; [|exact H2].
      apply Qplus_le_l with (z := inject_Z (Qfloor q2)). by ring_simplify.
    + rewrite <-Qgt_alt in H1. apply Qeq_alt in H2.
      apply (Qlt_irrefl (1 # 2)). rewrite <-H2 at 2.
      eapply Qlt_le_trans; [exact H1|].
      apply Qplus_le_l with (z := inject_Z (Qfloor q2)). by ring_simplify.
    + rewrite <-Qgt_alt in H1. rewrite <-Qlt_alt in H2.
      apply (Qlt_irrefl (1 # 2)).
      eapply Qlt_trans; [exact H1|]. eapply Qle_lt_trans; [|exact H2].
      apply Qplus_le_l with (z := inject_Z (Qfloor q2)). by ring_simplify.
  - pose proof (round_half_even_bounds q1). pose proof (round_half_even_bounds q2).
    lia.
Qed.

Lemma round_half_even_Z z : round_half_even (inject_Z z) = z.
Proof.
  unfold round_half_even. rewrite Qfloor_Z.
  assert (H : (inject_Z z - inject_Z z ?= 1 # 2) = Lt).
  { rewrite <-Qlt_alt. ring_simplify. reflexivity. }
  by rewrite H.
Qed.

Lemma round_half_even_proper q1 q2 :
  q1 == q2 → round_half_even q1 = round_half_even q2.
Proof.
  intros H. apply Z.le_antisymm; apply round_half_even_mono; rewrite H;
    apply Qle_refl.
Qed.

Lemma pow2_pos k : 0 < pow2 k.
Proof. by apply Qpower_0_lt. Qed.

Lemma pow2_plus a b : pow2 (a + b) == pow2 a * pow2 b.
Proof. by apply Qpower_plus. Qed.

Lemma pow2_le a b : (a ≤ b)%Z → pow2 a <= pow2 b.
Proof. intros H. by apply Qpower_le_compat_l. Qed.

Lemma pow2_Z k : (0 ≤ k)%Z → pow2 k == inject_Z (2 ^ k).
Proof. intros H. unfold pow2. by rewrite Zpower_Qpower. Qed.

Lemma pow2_cancel a : pow2 a * pow2 (- a) == 1.
Proof. rewrite <-pow2_plus, Z.add_opp_diag_r. reflexivity. Qed.

(** The binade of a positive rational brackets it. *)
Lemma binade_spec q : 0 < q → pow2 (binade q) <= q ∧ q < pow2 (binade q + 1).
Proof.
  destruct q as [n d]. intros Hq.
  assert (Hn : (0 < n)%Z) by (unfold Qlt in Hq; simpl in Hq; lia).
  unfold binade. cbn [Qnum Qden].
  set (a := Z.log2 n). set (b := Z.log2 (Z.pos d)).
  destruct (Z.log2_spec n Hn) as [Ha1 Ha2]. fold a in Ha1, Ha2.
  destruct (Z.log2_spec (Z.pos d) eq_refl) as [Hb1 Hb2]. fold b in Hb1, Hb2.
  assert (Ha0 : (0 ≤ a)%Z) by apply Z.log2_nonneg.
  assert (Hb0 : (0 ≤ b)%Z) by apply Z.log2_nonneg.
  assert (Hq' : n # d == inject_Z n / inject_Z (Z.pos d)) by apply Qmake_Qdiv.
  assert (Hd : 0 < inject_Z (Z.pos d)) by reflexivity.
  (* q < 2^(a-b+1) *)
  assert (Hup : n # d < pow2 (a - b + 1)).
  { rewrite Hq'. apply Qlt_shift_div_r; [done|].
    replace (a - b + 1)%Z with ((a + 1) + - b)%Z by lia.
    rewrite pow2_plus.
    eapply Qlt_le_trans.
    - rewrite <-Zlt_Qlt. exact Ha2.
    - rewrite <-(Z.add_1_r a), <-pow2_Z by lia.
      rewrite <-(Qmult_1_r (pow2 (a + 1))) at 1.
      rewrite <-Qmult_assoc. apply Qmult_le_l; [apply pow2_pos|].
      rewrite <-(pow2_cancel b), Qmult_comm.
      apply Qmult_le_l; [apply pow2_pos|].
      rewrite pow2_Z by done. by rewrite <-Zle_Qle. }
  (* 2^(a-b-1) <= q *)
  assert (Hlo : pow2 (a - b - 1) <= n # d).
  { rewrite Hq'. apply Qle_shift_div_l; [done|].
    replace (a - b - 1)%Z with (a + - (b + 1))%Z by lia.
    rewrite pow2_plus, <-Qmult_assoc.
    apply Qle_trans with (pow2 a * 1).
    - apply Qmult_le_l; [apply pow2_pos|].
      rewrite <-(pow2_cancel (b + 1)), (Qmult_comm (pow2 (b + 1))).
      apply Qmult_le_l; [apply pow2_pos|].
      rewrite pow2_Z by lia. rewrite <-Zle_Qle, Z.add_1_r. lia.
    - rewrite Qmult_1_r, pow2_Z by done. by rewrite <-Zle_Qle. }
  destruct (Qle_bool (pow2 (a - b)) (n # d)) eqn:Hk.
  - apply Qle_bool_iff in Hk. done.
  - split; [done|].
    replace (a - b - 1 + 1)%Z with (a - b)%Z by lia.
    apply Qnot_le_lt. intros H%Qle_bool_iff. congruence.
Qed.

Lemma binade_mono q1 q2 : 0 < q1 → q1 <= q2 → (binade q1 ≤ binade q2)%Z.
Proof.
  intros H1 H12.
  assert (H2 : 0 < q2) by (eapply Qlt_le_trans; done).
  destruct (binade_spec q1 H1) as [Hlo1 _].
  destruct (binade_spec q2 H2) as [_ Hup2].
  destruct (Z.le_gt_cases (binade q1) (binade q2)) as [?|Hgt]; [done|].
  exfalso. apply (Qlt_irrefl q2).
  eapply Qlt_le_trans; [exact Hup2|].
  eapply Qle_trans; [|exact H12]. eapply Qle_trans; [|exact Hlo1].
  apply pow2_le. lia.
Qed.

Lemma round_half_even_nonneg q : 0 <= q → (0 ≤ round_half_even q)%Z.
Proof.
  intros H. rewrite <-(round_half_even_Z 0). by apply round_half_even_mono.
Qed.

Lemma fl_nonneg_nonneg q : 0 <= q → 0 <= fl_nonneg q.
Proof.
  intros H. unfold fl_nonneg. apply Qmult_le_0_compat.
  - rewrite <-(Zle_Qle 0). apply round_half_even_nonneg.
    apply Qmult_le_0_compat; [done | apply Qlt_le_weak, pow2_pos].
  - apply Qlt_le_weak, pow2_pos.
Qed.

Lemma fl_nonneg_0 q : q == 0 → fl_nonneg q == 0.
Proof.
  intros H. unfold fl_nonneg.
  rewrite (round_half_even_proper _ (inject_Z 0)), round_half_even_Z.
  - ring.
  - etrans; [apply Qmult_comp; [exact H | reflexivity]|]. ring.
Qed.

(** Rounding at a fixed exponent: a multiple of [2^e] stays, and rounding
    does not cross it. *)
Lemma fl_nonneg_mono q1 q2 :
  0 <= q1 → q1 <= q2 → fl_nonneg q1 <= fl_nonneg q2.
Proof.
  intros H1 H12.
  assert (H2 : 0 <= q2) by (eapply Qle_trans; done).
  destruct (Qlt_le_dec 0 q1) as [Hpos|Hzero].
  2: { rewrite (fl_nonneg_0 q1) by (by apply Qle_antisym).
       by apply fl_nonneg_nonneg. }
  assert (Hpos2 : 0 < q2) by (eapply Qlt_le_trans; done).
  pose proof (binade_mono q1 q2 Hpos H12) as Hb.
  destruct (binade_spec q1 Hpos) as [_ Hup1].
  destruct (binade_spec q2 Hpos2) as [Hlo2 _].
  unfold fl_nonneg.
  set (e1 := Z.max (binade q1 - 52) (-1074)).
  set (e2 := Z.max (binade q2 - 52) (-1074)).
  assert (He : (e1 ≤ e2)%Z) by lia.
  destruct (decide (e1 = e2)) as [Heq|Hne].
  - rewrite Heq. apply Qmult_le_compat_r; [|apply Qlt_le_weak, pow2_pos].
    rewrite <-Zle_Qle. apply round_half_even_mono.
    apply Qmult_le_compat_r; [done | apply Qlt_le_weak, pow2_pos].
  - assert (He2 : e2 = (binade q2 - 52)%Z) by lia.
    apply Qle_trans with (pow2 (e2 + 52)).
    + apply Qle_trans with (inject_Z (2 ^ 53) * pow2 e1).
      * apply Qmult_le_compat_r; [|apply Qlt_le_weak, pow2_pos].
        rewrite <-Zle_Qle. rewrite <-(round_half_even_Z (2 ^ 53)).
        apply round_half_even_mono.
        rewrite <-pow2_Z by done.
        apply Qle_trans with (pow2 (binade q1 + 1) * pow2 (- e1)).
        -- apply Qmult_le_compat_r; [|apply Qlt_le_weak, pow2_pos].
           by apply Qlt_le_weak.
        -- rewrite <-pow2_plus. apply pow2_le. lia.
      * rewrite <-pow2_Z, <-pow2_plus by done. apply pow2_le. lia.
    + apply Qle_trans with (inject_Z (2 ^ 52) * pow2 e2).
      * rewrite <-pow2_Z, <-pow2_plus by done. apply pow2_le. lia.
      * apply Qmult_le_compat_r; [|apply Qlt_le_weak, pow2_pos].
        rewrite <-Zle_Qle. rewrite <-(round_half_even_Z (2 ^ 52)) at 1.
        apply round_half_even_mono.
        rewrite <-pow2_Z by done.
        apply Qle_trans with (pow2 (binade q2) * pow2 (- e2)).
        -- rewrite <-pow2_plus. apply pow2_le. lia.
        -- apply Qmult_le_compat_r; [done | apply Qlt_le_weak, pow2_pos].
Qed.

Lemma flQ_mono q1 q2 : q1 <= q2 → flQ q1 <= flQ q2.
Proof.
  intros H12. unfold flQ.
  destruct (Qle_bool 0 q1) eqn:H1; destruct (Qle_bool 0 q2) eqn:H2.
  - apply Qle_bool_iff in H1. by apply fl_nonneg_mono.
  - apply Qle_bool_iff in H1. exfalso.
    assert (Hn : ¬ 0 <= q2) by (intros ?%Qle_bool_iff; congruence).
    apply Hn. eapply Qle_trans; done.
  - apply Qle_bool_iff in H2.
    assert (Hn : ¬ 0 <= q1) by (intros ?%Qle_bool_iff; congruence).
    apply Qnot_le_lt in Hn.
    apply Qle_trans with 0; [|by apply fl_nonneg_nonneg].
    rewrite <-(Qopp_involutive 0). apply Qopp_le_compat.
    apply fl_nonneg_nonneg.
    rewrite <-(Qopp_involutive q1) in Hn. apply Qlt_le_weak in Hn.
    apply Qopp_le_compat in Hn. by rewrite !Qopp_involutive in Hn.
  - assert (Hn1 : ¬ 0 <= q1) by (intros ?%Qle_bool_iff; congruence).
    assert (Hn2 : ¬ 0 <= q2) by (intros ?%Qle_bool_iff; congruence).
    apply Qnot_le_lt in Hn1, Hn2.
    apply Qopp_le_compat. apply fl_nonneg_mono.
    + apply Qlt_le_weak in Hn2. apply Qopp_le_compat in Hn2. exact Hn2.
    + by apply Qopp_le_compat.
Qed.

Lemma flQ_proper q1 q2 : q1 == q2 → flQ q1 == flQ q2.
Proof.
  intros H. apply Qle_antisym; apply flQ_mono; rewrite H; apply Qle_refl.
Qed.

Lemma fl_nonneg_Z z : (0 ≤ z < 2 ^ 53)%Z → fl_nonneg (inject_Z z) == inject_Z z.
Proof.
  intros [Hz Hlt].
  destruct (decide (z = 0%Z)) as [->|Hne]; [by apply fl_nonneg_0|].
  assert (Hpos : 0 < inject_Z z) by (rewrite <-(Zlt_Qlt 0); lia).
  destruct (binade_spec _ Hpos) as [Hlo _].
  assert (Hb : (binade (inject_Z z) < 53)%Z).
  { destruct (Z.lt_ge_cases (binade (inject_Z z)) 53) as [?|Hge]; [done|].
    exfalso. apply (Qlt_irrefl (inject_Z z)).
    eapply Qlt_le_trans; [|exact Hlo].
    eapply Qlt_le_trans; [rewrite <-Zlt_Qlt; exact Hlt|].
    rewrite <-pow2_Z by done. by apply pow2_le. }
  unfold fl_nonneg. set (e := Z.max (binade (inject_Z z) - 52) (-1074)).
  assert (He : (0 ≤ - e)%Z) by lia.
  rewrite (round_half_even_proper _ (inject_Z (z * 2 ^ (- e)))).
  - rewrite round_half_even_Z, inject_Z_mult, <-pow2_Z by done.
    rewrite <-Qmult_assoc, (Qmult_comm (pow2 (- e))), pow2_cancel. ring.
  - by rewrite inject_Z_mult, <-pow2_Z.
Qed.

Lemma flQ_Z z : (Z.abs z < 2 ^ 53)%Z → flQ (inject_Z z) == inject_Z z.
Proof.
  intros Hz. unfold flQ. destruct (Qle_bool 0 (inject_Z z)) eqn:H0.
  - apply Qle_bool_iff in H0. rewrite <-(Zle_Qle 0) in H0.
    apply fl_nonneg_Z. lia.
  - assert (Hn : ¬ 0 <= inject_Z z) by (intros ?%Qle_bool_iff; congruence).
    rewrite <-(Zle_Qle 0) in Hn.
    change (- inject_Z z) with (inject_Z (- z)).
    rewrite fl_nonneg_Z by lia. by rewrite inject_Z_opp, Qopp_involutive.
Qed.

Local Close Scope Q_scope.

(** Rounding keeps the order, and leaves integers below [2^53] alone. *)
Lemma fl_mono (q1 q2 : Qc) : q1 ≤ q2 → fl q1 ≤ fl q2.
Proof.
  intros H. unfold fl, Qcle. cbn [this Q2Qc]. rewrite !Qred_correct.
  by apply flQ_mono.
Qed.

Lemma fl_Z z : (Z.abs z < 2 ^ 53)%Z → fl (Z2Qc z) = Z2Qc z.
Proof.
  intros Hz. unfold fl, Z2Qc. apply Qc_is_canon. cbn [this Q2Qc].
  rewrite Qred_correct.
  etrans; [apply flQ_proper, Qred_correct|].
  etrans; [by apply flQ_Z|]. symmetry. apply Qred_correct.
Qed.

Lemma Z2Qc_plus (a b : Z) : Z2Qc a + Z2Qc b = Z2Qc (a + b).
Proof.
  apply Qc_is_canon. unfold Z2Qc. cbn [this Q2Qc Qcplus].
  rewrite !Qred_correct, inject_Z_plus. reflexivity.
Qed.

Lemma Zsum_abs_nonneg zs : (0 ≤ Zsum (Z.abs <$> zs))%Z.
Proof.
  unfold Zsum. induction zs as [|z zs IH]; [done|].
  rewrite fmap_cons. cbn [foldr]. lia.
Qed.

(** A column of integers whose absolute values add up to less than [2^53]
    is summed without any rounding. *)
Lemma fl_sum_Z (zs : list Z) :
  (Zsum (Z.abs <$> zs) < 2 ^ 53)%Z →
  fl_sum (Z2Qc <$> zs) = Z2Qc (Zsum zs).
Proof.
  unfold fl_sum.
  assert (Hgen : ∀ acc : Z,
            (Z.abs acc + Zsum (Z.abs <$> zs) < 2 ^ 53)%Z →
            foldl (λ s x, fl (s + x)) (Z2Qc acc) (Z2Qc <$> zs)
            = Z2Qc (acc + Zsum zs)).
  { induction zs as [|z zs IH]; intros acc Hacc.
    - simpl. by rewrite Z.add_0_r.
    - rewrite fmap_cons in Hacc. rewrite fmap_cons.
      cbn [foldl Zsum foldr] in Hacc |- *.
      fold (Zsum zs). fold (Zsum (Z.abs <$> zs)) in Hacc.
      pose proof (Zsum_abs_nonneg zs).
      rewrite Z2Qc_plus, fl_Z by lia.
      rewrite IH by lia. f_equal. lia. }
  intros H. apply (Hgen 0%Z). simpl. lia.
Qed.

(** On samples, [fl] rounds quotients, sums and products as the Standard
    Library's IEEE 754 operations do: 1/10, 1/3, 2675/1000 and 1/10 + 2/10,
    the product of 2675/1000 by 100, and a quotient below the normal range. *)
Lemma fl_agrees_with_SpecFloat :
  SF2Qc (b64_div (b64_of_pos 1) (b64_of_pos 10)) = Some (fl (Q2Qc (1 # 10)))
  ∧ SF2Qc (b64_div (b64_of_pos 1) (b64_of_pos 3)) = Some (fl (Q2Qc (1 # 3)))
  ∧ SF2Qc (b64_div (b64_of_pos 2675) (b64_of_pos 1000))
    = Some (fl (Q2Qc (2675 # 1000)))
  ∧ SF2Qc (b64_add (b64_div (b64_of_pos 1) (b64_of_pos 10))
                   (b64_div (b64_of_pos 2) (b64_of_pos 10)))
    = Some (fl (fl (Q2Qc (1 # 10)) + fl (Q2Qc (2 # 10))))
  ∧ SF2Qc (b64_mul (b64_div (b64_of_pos 2675) (b64_of_pos 1000))
                   (b64_of_pos 100))
    = Some (fl (fl (Q2Qc (2675 # 1000)) * Z2Qc 100))
  ∧ SF2Qc (b64_div (b64_of_pos 1) (b64_of_pos (2 ^ 1070 * 3)))
    = Some (fl (Q2Qc (1 # 2 ^ 1070 * 3))).
Proof.
  repeat split; apply (f_equal Some), Qc_is_canon; by vm_compute.
Qed.

(** ** Elevation statistics *)

Lemma Z2Qc_succ (n : nat) : Z2Qc (Z.of_nat (S n)) = Z2Qc (Z.of_nat n) + 1.
Proof.
  apply Qc_is_canon. unfold Z2Qc. simpl.
  rewrite !Qred_correct, Nat2Z.inj_succ, <-Z.add_1_r, inject_Z_plus.
  reflexivity.
Qed.

Lemma Z2Qc_0 : Z2Qc (Z.of_nat 0) = 0.
Proof. by apply Qc_is_canon. Qed.

Lemma Z2Qc_pos (n : nat) : 0 < Z2Qc (Z.of_nat (S n)).
Proof.
  unfold Qclt, Z2Qc. cbn [this Q2Qc]. rewrite !Qred_correct.
  unfold Qlt. simpl. lia.
Qed.

Lemma Qc_min_le_l a b : Qc_min a b ≤ a.
Proof.
  unfold Qc_min. case_decide; [apply Qcle_refl|].
  by apply Qclt_le_weak, Qcnot_le_lt.
Qed.

Lemma Qc_min_le_r a b : Qc_min a b ≤ b.
Proof. unfold Qc_min. case_decide; [done | apply Qcle_refl]. Qed.

Lemma Qc_max_ge_l a b : a ≤ Qc_max a b.
Proof. unfold Qc_max. case_decide; [done | apply Qcle_refl]. Qed.

Lemma Qc_max_ge_r a b : b ≤ Qc_max a b.
Proof.
  unfold Qc_max. case_decide; [apply Qcle_refl|].
  by apply Qclt_le_weak, Qcnot_le_lt.
Qed.

Lemma foldl_min_lower qs : ∀ q x, x ∈ q :: qs → foldl Qc_min q qs ≤ x.
Proof.
  induction qs as [|y qs IH]; simpl; intros q x Hx.
  - apply list_elem_of_singleton in Hx as ->. apply Qcle_refl.
  - apply elem_of_cons in Hx as [->|Hx].
    + eapply Qcle_trans; [apply IH; left | apply Qc_min_le_l].
    + apply elem_of_cons in Hx as [->|Hx].
      * eapply Qcle_trans; [apply IH; left | apply Qc_min_le_r].
      * apply IH. by right.
Qed.

Lemma foldl_max_upper qs : ∀ q x, x ∈ q :: qs → x ≤ foldl Qc_max q qs.
Proof.
  induction qs as [|y qs IH]; simpl; intros q x Hx.
  - apply list_elem_of_singleton in Hx as ->. apply Qcle_refl.
  - apply elem_of_cons in Hx as [->|Hx].
    + eapply Qcle_trans; [apply Qc_max_ge_l | apply IH; left].
    + apply elem_of_cons in Hx as [->|Hx].
      * eapply Qcle_trans; [apply Qc_max_ge_r | apply IH; left].
      * apply IH. by right.
Qed.

Lemma Qc_sum_lower qs lo :
  (∀ x, x ∈ qs → lo ≤ x) → lo * Z2Qc (Z.of_nat (length qs)) ≤ Qc_sum qs.
Proof.
  induction qs as [|q qs IH]; intros Hlo; simpl length.
  - rewrite Z2Qc_0, Qcmult_0_r. apply Qcle_refl.
  - rewrite Z2Qc_succ. simpl.
    replace (lo * (Z2Qc (Z.of_nat (length qs)) + 1))
      with (lo + lo * Z2Qc (Z.of_nat (length qs))) by ring.
    apply Qcplus_le_compat; [apply Hlo; left|].
    apply IH. intros x Hx. apply Hlo. by right.
Qed.

Lemma Qc_sum_upper qs hi :
  (∀ x, x ∈ qs → x ≤ hi) → Qc_sum qs ≤ hi * Z2Qc (Z.of_nat (length qs)).
Proof.
  induction qs as [|q qs IH]; intros Hhi; simpl length.
  - rewrite Z2Qc_0, Qcmult_0_r. apply Qcle_refl.
  - rewrite Z2Qc_succ. simpl.
    replace (hi * (Z2Qc (Z.of_nat (length qs)) + 1))
      with (hi + hi * Z2Qc (Z.of_nat (length qs))) by ring.
    apply Qcplus_le_compat; [apply Hhi; left|].
    apply IH. intros x Hx. apply Hhi. by right.
Qed.

Lemma Qcinv_pos n : 0 < n → 0 < / n.
Proof.
  unfold Qclt, Qcinv. cbn [this Q2Qc]. rewrite !Qred_correct.
  apply Qinv_lt_0_compat.
Qed.

Lemma Qc_div_lower a s n : 0 < n → a * n ≤ s → a ≤ s / n.
Proof.
  intros Hn H.
  assert (Hne : n ≠ 0) by (intros ->; by apply Qclt_not_eq in Hn).
  replace a with (a * n / n) by (field; exact Hne).
  unfold Qcdiv. apply Qcmult_le_compat_r; [exact H|].
  by apply Qclt_le_weak, Qcinv_pos.
Qed.

Lemma Qc_div_upper a s n : 0 < n → s ≤ a * n → s / n ≤ a.
Proof.
  intros Hn H.
  assert (Hne : n ≠ 0) by (intros ->; by apply Qclt_not_eq in Hn).
  replace a with (a * n / n) by (field; exact Hne).
  unfold Qcdiv. apply Qcmult_le_compat_r; [exact H|].
  by apply Qclt_le_weak, Qcinv_pos.
Qed.

Lemma foldl_min_elem qs : ∀ q, foldl Qc_min q qs ∈ q :: qs.
Proof.
  induction qs as [|y qs IH]; simpl; intros q; [left|].
  specialize (IH (Qc_min q y)). apply elem_of_cons in IH as [->|IH].
  - unfold Qc_min. case_decide; [left | right; left].
  - by do 2 right.
Qed.

Lemma foldl_max_elem qs : ∀ q, foldl Qc_max q qs ∈ q :: qs.
Proof.
  induction qs as [|y qs IH]; simpl; intros q; [left|].
  specialize (IH (Qc_max q y)). apply elem_of_cons in IH as [->|IH].
  - unfold Qc_max. case_decide; [right; left | left].
  - by do 2 right.
Qed.

(** The minimum and the maximum of a column that holds at least one number
    are numbers of the column that bound all the others, and the exact mean
    lies between them. *)
Lemma col_stats_bounds col q qs :
  present col = q :: qs →
  ∃ lo hi,
    col_min col = fin lo ∧ col_max col = fin hi
    ∧ lo ≤ hi ∧ lo ∈ present col ∧ hi ∈ present col
    ∧ (∀ x, x ∈ present col → lo ≤ x ∧ x ≤ hi)
    ∧ lo ≤ Qc_sum (q :: qs) / Z2Qc (Z.of_nat (length (q :: qs)))
    ∧ Qc_sum (q :: qs) / Z2Qc (Z.of_nat (length (q :: qs))) ≤ hi.
Proof.
  intros Hp. unfold col_min, col_max. rewrite Hp.
  eexists _, _. split; [done|]. split; [done|].
  split; [|split; [|split; [|split; [|split]]]].
  - eapply Qcle_trans; [apply (foldl_min_lower qs q q); left|].
    apply foldl_max_upper. left.
  - apply foldl_min_elem.
  - apply foldl_max_elem.
  - intros x Hx. split; [by apply foldl_min_lower | by apply foldl_max_upper].
  - apply Qc_div_lower; [apply Z2Qc_pos|].
    apply Qc_sum_lower. apply foldl_min_lower.
  - apply Qc_div_upper; [apply Z2Qc_pos|].
    apply Qc_sum_upper. apply foldl_max_upper.
Qed.

Lemma fin_canon (a b : Qc) : (this a == this b)%Q → fin a = fin b.
Proof. intros H. f_equal. by apply Qc_is_canon. Qed.

Lemma present_elem col q : q ∈ present col ↔ fin q ∈ col.
Proof.
  unfold present. rewrite list_elem_of_omap. split.
  - intros ([|q'] & Hin & Heq); [done|]. by injection Heq as ->.
  - intros Hin. by exists (fin q).
Qed.

Lemma elevation_stats_present (data : list (airport float64))
    (a : airport float64) q :
  a ∈ data → elevation_ft a = fin q →
  ∃ lo hi avg,
    elevation_stats data = (fin lo, fin hi, fin avg)
    ∧ lo ≤ hi
    ∧ fin lo ∈ elevation_col data ∧ fin hi ∈ elevation_col data
    ∧ (∀ x, fin x ∈ elevation_col data → lo ≤ x ∧ x ≤ hi).
Proof.
  intros Ha Hq.
  assert (Hin : q ∈ present (elevation_col data)).
  { apply present_elem. unfold elevation_col. apply list_elem_of_fmap.
    by exists a. }
  destruct (present (elevation_col data)) as [|q0 qs] eqn:Hp;
    [by apply elem_of_nil in Hin|].
  destruct (col_stats_bounds _ _ _ Hp)
    as (lo & hi & Hlo & Hhi & Hle & Hlin & Hhin & Hall & _).
  exists lo, hi. eexists. unfold elevation_stats, col_mean.
  rewrite Hlo, Hhi, Hp. split; [done|]. split; [done|].
  split; [by apply present_elem|]. split; [by apply present_elem|].
  intros x Hx. apply Hall. by apply present_elem.
Qed.

Lemma present_integers (zs : list Z) :
  present ((λ z, fin (Z2Qc z)) <$> zs) = Z2Qc <$> zs.
Proof. induction zs as [|z zs IH]; [done|]. rewrite !fmap_cons, <-IH. done. Qed.

Lemma Qc_sum_integers (zs : list Z) : Qc_sum (Z2Qc <$> zs) = Z2Qc (Zsum zs).
Proof.
  induction zs as [|z zs IH]; [by apply Qc_is_canon|].
  rewrite fmap_cons. unfold Qc_sum, Zsum in *. simpl.
  by rewrite IH, Z2Qc_plus.
Qed.

Lemma Zabs_le_Zsum (zs : list Z) z :
  z ∈ zs → (Z.abs z ≤ Zsum (Z.abs <$> zs))%Z.
Proof.
  unfold Zsum. induction zs as [|y zs IH]; [by intros ?%elem_of_nil|].
  rewrite fmap_cons. cbn [foldr]. pose proof (Zsum_abs_nonneg zs) as Hnn.
  unfold Zsum in Hnn.
  intros [->|Hz]%elem_of_cons; [lia|]. specialize (IH Hz). lia.
Qed.

(** On a column of whole numbers (elevations in feet are) whose absolute
    values add up to less than [2^53] the sum is exact, the mean is the
    exact mean rounded once, and it lies between the minimum and the
    maximum. *)
Lemma elevation_stats_integers (data : list (airport float64)) (zs : list Z) :
  zs ≠ [] →
  elevation_col data = (λ z, fin (Z2Qc z)) <$> zs →
  (Zsum (Z.abs <$> zs) < 2 ^ 53)%Z →
  ∃ lo hi avg,
    elevation_stats data = (fin lo, fin hi, fin avg)
    ∧ avg = fl (Z2Qc (Zsum zs) / Z2Qc (Z.of_nat (length zs)))
    ∧ lo ≤ avg ∧ avg ≤ hi.
Proof.
  intros Hne Hcol Hsum.
  assert (Hp : present (elevation_col data) = Z2Qc <$> zs)
    by (by rewrite Hcol, present_integers).
  destruct zs as [|z zs]; [done|]. rewrite fmap_cons in Hp.
  destruct (col_stats_bounds _ _ _ Hp)
    as (lo & hi & Hlo & Hhi & _ & Hlin & Hhin & _ & Hmlo & Hmhi).
  exists lo, hi. eexists. unfold elevation_stats, col_mean.
  rewrite Hlo, Hhi, Hp. split; [reflexivity|].
  rewrite <-fmap_cons in *. rewrite length_fmap in *.
  rewrite (fl_sum_Z _ Hsum). rewrite Qc_sum_integers in Hmlo, Hmhi.
  split; [done|].
  rewrite Hp in Hlin, Hhin.
  apply list_elem_of_fmap in Hlin as (zl & -> & Hzl).
  apply list_elem_of_fmap in Hhin as (zh & -> & Hzh).
  pose proof (Zabs_le_Zsum _ _ Hzl). pose proof (Zabs_le_Zsum _ _ Hzh).
  split.
  - rewrite <-(fl_Z zl) at 1 by lia. by apply fl_mono.
  - etrans; [apply fl_mono; exact Hmhi|]. rewrite fl_Z by lia. apply Qcle_refl.
Qed.

(** C4, as the script has it.  On a record set with at least one elevation
    that is a number (every non-empty set the filter stage hands over is one,
    in whatever order it is sorted) the minimum and the maximum are
    elevations of the set that bound all the others, so min <= max.  The mean
    is the rounded quotient of the rounded sum: on whole-number elevations
    whose absolute values add up to less than 2^53 it is the exact mean
    rounded once, and min <= mean <= max.  On the empty set the three results
    are NaN. *)
Theorem elevation_stats_bounds :
  (∀ (data : list (airport float64)) (a : airport float64) q,
      a ∈ data → elevation_ft a = fin q →
      ∃ lo hi,
        (elevation_stats data).1.1 = fin lo
        ∧ (elevation_stats data).1.2 = fin hi
        ∧ fle (fin lo) (fin hi)
        ∧ fin lo ∈ elevation_col data ∧ fin hi ∈ elevation_col data
        ∧ (∀ x, fin x ∈ elevation_col data → lo ≤ x ∧ x ≤ hi))
  ∧ (∀ (data : list (airport float64)) (zs : list Z),
        zs ≠ [] →
        elevation_col data = (λ z, fin (Z2Qc z)) <$> zs →
        (Zsum (Z.abs <$> zs) < 2 ^ 53)%Z →
        ∃ lo hi avg,
          elevation_stats data = (fin lo, fin hi, fin avg)
          ∧ avg = fl (Z2Qc (Zsum zs) / Z2Qc (Z.of_nat (length zs)))
          ∧ fle (fin lo) (fin avg) ∧ fle (fin avg) (fin hi))
  ∧ (∀ sort_values df w out,
        sort_contract sort_values →
        filter_stage df w = Ok out → out ≠ [] →
        ∃ lo hi,
          (elevation_stats (sort_values false out)).1.1 = fin lo
          ∧ (elevation_stats (sort_values false out)).1.2 = fin hi
          ∧ fle (fin lo) (fin hi))
  ∧ elevation_stats [] = (nan, nan, nan).
Proof.
  split; [|split; [|split]].
  - intros data a q Ha Hq.
    destruct (elevation_stats_present data a q Ha Hq)
      as (lo & hi & avg & -> & ? & ? & ? & ?).
    by exists lo, hi.
  - apply elevation_stats_integers.
  - intros sort_values df w out Hsort (kept & Hk & ->)%filter_stage_Ok Hne.
    destruct (dropna_coords (filter_type kept (airport_types w)))
      as [|a out] eqn:Hout; [done|].
    assert (Ha : a ∈ kept).
    { assert (Hin : a ∈ dropna_coords (filter_type kept (airport_types w)))
        by (rewrite Hout; left).
      unfold dropna_coords, filter_type in Hin.
      apply list_elem_of_filter in Hin as [_ Hin].
      by apply list_elem_of_filter in Hin as [_ Hin]. }
    apply filter_elevation_Ok in Hk as [_ Hall].
    destruct (Hall a Ha) as [_ Hge].
    destruct (elevation_ft a) as [|q] eqn:Hq; [done|].
    destruct (Hsort false (a :: out)) as [Hperm _].
    assert (Hin : a ∈ sort_values false (a :: out)) by (rewrite Hperm; left).
    destruct (elevation_stats_present _ a q Hin Hq)
      as (lo & hi & avg & -> & ? & _).
    by exists lo, hi.
  - done.
Qed.

(** The three Connecticut airports of [connecticut_kept], at 60, 1500 and
    900 ft: the mean is 820 ft. *)
Lemma elevation_stats_bounds_witness :
  ∃ lo hi avg,
    elevation_stats connecticut_kept = (fin lo, fin hi, fin avg)
    ∧ avg = fl (Z2Qc (Zsum [60; 1500; 900]%Z)
                / Z2Qc (Z.of_nat (length [60; 1500; 900]%Z)))
    ∧ fle (fin lo) (fin avg) ∧ fle (fin avg) (fin hi).
Proof.
  apply (proj1 (proj2 elevation_stats_bounds) connecticut_kept
           [60; 1500; 900]%Z).
  - discriminate.
  - reflexivity.
  - by vm_compute.
Defined.

(** C4 as stated fails: three airports at 0.1 ft pass the filter stage with
    the default widget values, and in whatever order line 83 leaves them the
    sum of their elevations rounds up to 0.30000000000000004 and the mean to
    0.10000000000000002, the binary64 value above the maximum 0.1. *)
Lemma elevation_stats_mean_above_max :
  tenth = fl (Q2Qc (1 # 10))
  ∧ filter_stage tenth_frame connecticut_defaults = Ok tenth_kept
  ∧ tenth_kept ≠ []
  ∧ elevation_stats tenth_kept = (fin tenth, fin tenth, fin above_tenth)
  ∧ (∀ sort_values, sort_contract sort_values →
       elevation_stats (sort_values false tenth_kept)
       = (fin tenth, fin tenth, fin above_tenth))
  ∧ tenth < above_tenth
  ∧ ¬ fle (elevation_stats tenth_kept).2 (elevation_stats tenth_kept).1.2.
Proof.
  assert (Hcol : elevation_col tenth_kept = replicate 3 (fin tenth))
    by reflexivity.
  assert (Hstats : ∀ data : list (airport float64),
            elevation_col data = replicate 3 (fin tenth) →
            elevation_stats data = (fin tenth, fin tenth, fin above_tenth)).
  { intros data Hdata. unfold elevation_stats, col_min, col_max, col_mean.
    rewrite Hdata. cbn [replicate present omap list_omap].
    repeat f_equal; apply fin_canon; by vm_compute. }
  split; [apply Qc_is_canon; by vm_compute|].
  split; [reflexivity|]. split; [done|].
  split; [by apply Hstats|]. split; [|split].
  - intros sort_values Hsort. destruct (Hsort false tenth_kept) as [Hp _].
    apply Hstats. symmetry. apply replicate_Permutation.
    rewrite <-Hcol. unfold elevation_col. by rewrite Hp.
  - by vm_compute.
  - rewrite (Hstats tenth_kept Hcol). cbn [fst snd fle].
    apply Qclt_not_le. by vm_compute.
Qed.

(** The same three airports in the Standard Library's IEEE 754 arithmetic:
    0.1, the sum of three of them divided by 3, and their comparison. *)
Lemma mean_of_tenths_by_SpecFloat :
  SF2Qc (b64_div (b64_of_pos 1) (b64_of_pos 10)) = Some tenth
  ∧ SF2Qc (b64_div
             (b64_add (b64_add (b64_div (b64_of_pos 1) (b64_of_pos 10))
                               (b64_div (b64_of_pos 1) (b64_of_pos 10)))
                      (b64_div (b64_of_pos 1) (b64_of_pos 10)))
             (b64_of_pos 3))
    = Some above_tenth
  ∧ SFcompare
      (b64_div
         (b64_add (b64_add (b64_div (b64_of_pos 1) (b64_of_pos 10))
                           (b64_div (b64_of_pos 1) (b64_of_pos 10)))
                  (b64_div (b64_of_pos 1) (b64_of_pos 10)))
         (b64_of_pos 3))
      (b64_div (b64_of_pos 1) (b64_of_pos 10))
    = Some Gt.
Proof.
  split; [|split]; [| |by vm_compute];
    apply (f_equal Some), Qc_is_canon; by vm_compute.
Qed.

(** ** Sorting by elevation *)

#[local] Instance key_order_total asc : Total (key_order asc).
Proof.
  intros [|a] [|b]; simpl; auto.
  destruct asc; destruct (Qclt_le_dec a b) as [H%Qclt_le_weak|H]; auto.
Qed.

#[local] Instance key_order_trans asc : Transitive (key_order asc).
Proof.
  intros [|a] [|b] [|c]; simpl; try done.
  destruct asc; eauto using Qcle_trans.
Qed.

#[local] Instance key_order_antisymm asc : AntiSymm eq (key_order asc).
Proof.
  intros [|a] [|b]; simpl; try done.
  destruct asc; intros H1 H2; f_equal; by apply Qcle_antisym.
Qed.

#[local] Instance row_order_trans asc : Transitive (row_order asc).
Proof. intros a b c. unfold row_order. apply key_order_trans. Qed.

Lemma insert_row_Permutation before a l : insert_row before a l ≡ₚ a :: l.
Proof.
  induction l as [|b l IH]; simpl; [done|].
  destruct (before a b); [done|]. by rewrite IH, Permutation_swap.
Qed.

Lemma insert_row_Sorted asc before a l :
  (∀ x y, before x y = true → row_order asc x y) →
  (∀ x y, before x y = false → row_order asc y x) →
  Sorted (row_order asc) l → Sorted (row_order asc) (insert_row before a l).
Proof.
  intros Ht Hf. induction 1 as [|b l Hs IH Hhd]; simpl.
  - by repeat constructor.
  - destruct (before a b) eqn:Hab.
    + constructor; [by constructor | constructor; by apply Ht].
    + constructor; [exact IH|].
      destruct l as [|c l]; simpl.
      * constructor. by apply Hf.
      * destruct (before a c); constructor;
          [by apply Hf | by apply HdRel_inv in Hhd].
Qed.

Lemma insertion_sort_contract asc before data :
  (∀ x y, before x y = true → row_order asc x y) →
  (∀ x y, before x y = false → row_order asc y x) →
  insertion_sort before data ≡ₚ data
  ∧ Sorted (row_order asc) (insertion_sort before data).
Proof.
  intros Ht Hf. unfold insertion_sort.
  induction data as [|a data [IHp IHs]]; simpl; [by split; constructor|].
  split.
  - by rewrite insert_row_Permutation, IHp.
  - by apply (insert_row_Sorted asc).
Qed.

Lemma stable_sort_values_contract : sort_contract stable_sort_values.
Proof.
  intros asc data. apply insertion_sort_contract; intros x y.
  - by intros ?%bool_decide_eq_true.
  - intros H%bool_decide_eq_false.
    destruct (key_order_total asc (elevation_ft x) (elevation_ft y)); done.
Qed.

(** The key column of a sorted rearrangement of a frame is determined by the
    frame. *)
Lemma sorted_keys_unique asc (l1 l2 : list (airport float64)) :
  l1 ≡ₚ l2 →
  Sorted (row_order asc) l1 → Sorted (row_order asc) l2 →
  elevation_col l1 = elevation_col l2.
Proof.
  intros Hp H1 H2. unfold elevation_col.
  apply (Sorted_unique (key_order asc)).
  - by apply (Sorted_fmap _ (row_order asc)).
  - by apply (Sorted_fmap _ (row_order asc)).
  - by rewrite Hp.
Qed.

Lemma NoDup_fmap_inj {A B} (f : A → B) (l : list A) x y :
  NoDup (f <$> l) → x ∈ l → y ∈ l → f x = f y → x = y.
Proof.
  induction l as [|z l IH]; simpl; intros Hnd Hx Hy Hxy.
  - by apply elem_of_nil in Hx.
  - apply NoDup_cons in Hnd as [Hz Hnd].
    apply elem_of_cons in Hx as [->|Hx], Hy as [->|Hy]; auto.
    + destruct Hz. rewrite Hxy. by apply list_elem_of_fmap_2.
    + destruct Hz. rewrite <-Hxy. by apply list_elem_of_fmap_2.
Qed.

(** With no elevation occurring twice, a sorted rearrangement is unique. *)
Lemma sorted_rows_unique asc (data l1 l2 : list (airport float64)) :
  NoDup (elevation_col data) →
  l1 ≡ₚ data → l2 ≡ₚ data →
  Sorted (row_order asc) l1 → Sorted (row_order asc) l2 →
  l1 = l2.
Proof.
  intros Hnd Hp1 Hp2 H1 H2.
  apply (Sorted_unique_strong (row_order asc)); [|done|done|by rewrite Hp1].
  intros x1 x2 Hx1 Hx2 H12 H21.
  apply (NoDup_fmap_inj (λ a : airport float64, elevation_ft a) data);
    [done | by rewrite <-Hp1 | by rewrite <-Hp2|].
  by apply (key_order_antisymm asc).
Qed.

Lemma filter_key_short (data : list (airport float64)) k :
  NoDup (elevation_col data) →
  (length (filter (λ a : airport float64, elevation_ft a = k) data) ≤ 1)%nat.
Proof.
  unfold elevation_col. induction data as [|a data IH]; simpl; [lia|].
  intros [Ha Hnd]%NoDup_cons. rewrite filter_cons.
  destruct (decide (elevation_ft a = k)) as [Hk|Hk]; [|by apply IH].
  assert (Hnil : filter (λ a : airport float64, elevation_ft a = k) data = []).
  { destruct (filter _ data) as [|b l] eqn:Hf; [done|].
    assert (Hb : b ∈ filter (λ a : airport float64, elevation_ft a = k) data)
      by (rewrite Hf; left).
    apply list_elem_of_filter in Hb as [Hbk Hb].
    destruct Ha. rewrite Hk, <-Hbk.
    by apply (list_elem_of_fmap_2 (λ a : airport float64, elevation_ft a)). }
  rewrite Hnil. simpl. lia.
Qed.

Lemma short_Permutation_eq {A} (l1 l2 : list A) :
  l1 ≡ₚ l2 → (length l1 ≤ 1)%nat → l1 = l2.
Proof.
  intros Hp Hlen. destruct l1 as [|x [|y l1]]; simpl in Hlen; [| |lia].
  - by apply Permutation_nil_l in Hp.
  - by apply Permutation_singleton_l in Hp.
Qed.

(** What the call of line 83 settles, whatever routine does the sorting
    under the default sort kind: the elevation column of the result depends
    neither on the routine nor on the order the rows came in, and sorting
    again leaves it as it is.  When no elevation occurs twice the order of
    the records themselves is settled: records keep their relative order, a
    second sort changes nothing, and every routine returns the same frame. *)
Theorem sorted_column_determined
    (sort_values : bool → list (airport float64) → list (airport float64))
    (Hsort : sort_contract sort_values) (data : list (airport float64)) :
  (∀ sort_values' data',
      sort_contract sort_values' → data' ≡ₚ data →
      elevation_col (sort_values' false data')
      = elevation_col (sort_values false data))
  ∧ elevation_col (sort_values false (sort_values false data))
    = elevation_col (sort_values false data)
  ∧ (NoDup (elevation_col data) →
       stable_on (sort_values false data) data
       ∧ sort_values false (sort_values false data) = sort_values false data
       ∧ ∀ sort_values', sort_contract sort_values' →
           sort_values' false data = sort_values false data).
Proof.
  destruct (Hsort false data) as [Hp Hs].
  destruct (Hsort false (sort_values false data)) as [Hp2 Hs2].
  split; [|split].
  - intros sort_values' data' Hsort' Hdata'.
    destruct (Hsort' false data') as [Hp' Hs'].
    apply (sorted_keys_unique false); [by rewrite Hp, Hp' | done | done].
  - by apply (sorted_keys_unique false).
  - intros Hnd. split; [|split].
    + intros k. apply short_Permutation_eq.
      * by rewrite Hp.
      * rewrite Hp. by apply filter_key_short.
    + apply (sorted_rows_unique false data); [done| |done|done|done].
      by rewrite Hp2.
    + intros sort_values' Hsort'. destruct (Hsort' false data) as [Hp' Hs'].
      by apply (sorted_rows_unique false data).
Qed.

(** On the three Connecticut airports, whose elevations differ. *)
Lemma sorted_column_determined_witness :
  stable_on (stable_sort_values false connecticut_kept) connecticut_kept
  ∧ stable_sort_values false (stable_sort_values false connecticut_kept)
    = stable_sort_values false connecticut_kept
  ∧ ∀ sort_values', sort_contract sort_values' →
      sort_values' false connecticut_kept
      = stable_sort_values false connecticut_kept.
Proof.
  apply (sorted_column_determined stable_sort_values
           stable_sort_values_contract connecticut_kept).
  apply (bool_decide_unpack _). by vm_compute.
Defined.

(** ** Elevation coercion *)

Section Coercion.
Variable float_of_string : string → option float64.

(** What [astype(float)] raises is a [ValueError] for the first cell that
    does not read as a number. *)
Lemma astype_float_Raise col e :
  astype_float float_of_string col = Raise e →
  ∃ good s rest,
    col = good ++ CStr s :: rest
    ∧ e = ValueError s
    ∧ float_of_string s = None
    ∧ ∃ xs, astype_float float_of_string good = Ok xs.
Proof.
  induction col as [|c col IH]; simpl; [done|].
  destruct (cell_to_float float_of_string c) as [x|e'] eqn:Hc.
  - destruct (astype_float float_of_string col) as [xs|e'] eqn:Hcol; [done|].
    intros [= ->].
    destruct (IH eq_refl) as (good & s & rest & -> & -> & Hs & xs & Hgood).
    exists (c :: good), s, rest. simpl. rewrite Hc, Hgood. eauto.
  - intros [= ->]. destruct c as [x|s]; simpl in Hc; [done|].
    destruct (float_of_string s) eqn:Hs; [done|]. injection Hc as <-.
    exists [], s, col. simpl. eauto.
Qed.

Lemma coerce_elevation_Raise df e log :
  astype_float float_of_string (elevation_col df) = Raise e →
  coerce_elevation float_of_string df log
  = (log ++ [st_error "Error converting elevation to float: " e], Ok df).
Proof.
  intros H.
  unfold coerce_elevation, try_except, mbind, run_bind, bind, lift, emit.
  by rewrite H.
Qed.

Lemma coerce_elevation_Ok df col log :
  astype_float float_of_string (elevation_col df) = Ok col →
  coerce_elevation float_of_string df log
  = (log, Ok (assign_elevation df col)).
Proof.
  intros H.
  unfold coerce_elevation, try_except, mbind, run_bind, bind, lift.
  by rewrite H.
Qed.

(** The coercion step itself never ends the run. *)
Lemma coerce_elevation_returns df log :
  ∃ log' df', coerce_elevation float_of_string df log = (log', Ok df').
Proof.
  destruct (astype_float float_of_string (elevation_col df)) as [col|e] eqn:H.
  - rewrite (coerce_elevation_Ok df col log H). eauto.
  - rewrite (coerce_elevation_Raise df e log H). eauto.
Qed.
End Coercion.

Lemma set_page_config_late page_title layout (e : event) log :
  set_page_config page_title layout (log ++ [e])
  = (log ++ [e], Raise StreamlitAPIException).
Proof. unfold set_page_config. by destruct log. Qed.

Lemma page_after_output sort_values str_contains df w (e : event) log :
  page sort_values str_contains df w (log ++ [e])
  = (log ++ [e], Raise StreamlitAPIException).
Proof.
  unfold page, widgets_section. unfold mbind at 1 2. unfold run_bind, bind.
  by rewrite set_page_config_late.
Qed.

(** C9, on the code.  If [astype(float)] fails on the elevation column,
    whatever the number of cells that do not parse: the step shows one error
    (the [ValueError] of the first such cell) and the frame it leaves is the
    frame it was given; but the run does not go on: the next Streamlit call
    is [st.set_page_config], which has to be the first one, so the run ends
    there with [StreamlitAPIException], and the error message is all that is
    shown. *)
Theorem coercion_failure_ends_run
    (float_of_string : string → option float64)
    (sort_values : bool → list (airport float64) → list (airport float64))
    (str_contains : string → result (string → bool))
    (rows : list (csv_row cell)) (w : widgets) (e : exn) :
  astype_float float_of_string (elevation_col (load rows)) = Raise e →
  coerce_elevation float_of_string (load rows) []
  = ([st_error "Error converting elevation to float: " e], Ok (load rows))
  ∧ script float_of_string sort_values str_contains rows w []
    = ([st_error "Error converting elevation to float: " e],
       Raise StreamlitAPIException)
  ∧ ∃ s, e = ValueError s ∧ CStr s ∈ elevation_col (load rows)
         ∧ float_of_string s = None.
Proof.
  intros H. split; [exact (coerce_elevation_Raise _ _ e [] H)|]. split.
  - unfold script, mbind, run_bind, bind.
    rewrite (coerce_elevation_Raise _ _ e [] H).
    apply (page_after_output _ _ _ _ _ []).
  - apply astype_float_Raise in H as (good & s & rest & -> & -> & Hs & _).
    exists s. split; [done|]. split; [|done].
    apply elem_of_app. right. left.
Qed.

Lemma coercion_failure_ends_run_witness :
  coerce_elevation float_of_digits (load malformed_rows) []
  = ([st_error "Error converting elevation to float: " (ValueError "unknown")],
     Ok (load malformed_rows))
  ∧ script float_of_digits stable_sort_values never_contains
      malformed_rows vermont_widgets []
    = ([st_error "Error converting elevation to float: "
          (ValueError "unknown")],
       Raise StreamlitAPIException)
  ∧ ∃ s, ValueError "unknown" = ValueError s
         ∧ CStr s ∈ elevation_col (load malformed_rows)
         ∧ float_of_digits s = None.
Proof.
  apply (coercion_failure_ends_run float_of_digits stable_sort_values
           never_contains malformed_rows vermont_widgets
           (ValueError "unknown")).
  reflexivity.
Defined.

(** ** What the views show *)

(** Past the filter stage the views are [views_outcome] on the frame line 83
    leaves. *)
Lemma views_shown sort_values str_contains df w out log :
  filter_stage df w = Ok out →
  views sort_values str_contains df w log
  = (log ++ (views_outcome sort_values str_contains
               (sort_values false out) w).1,
     (views_outcome sort_values str_contains (sort_values false out) w).2).
Proof.
  intros Hf. unfold views. rewrite Hf.
  unfold mbind at 1. unfold run_bind, bind at 1. unfold lift.
  generalize (sort_values false out). intros filtered.
  unfold views_outcome, shown_by_search, shown_before_search,
    shown_after_search, search_rows, mean_latitude, mean_longitude,
    categorize, elevation_stats.
  destruct (bool_decide (filtered ≠ [])) eqn:Hne;
    destruct (bool_decide (search_term w ≠ ""));
    destruct (str_contains (search_term w));
    destruct filtered as [|a1 [|a2 filtered]];
    try (by apply bool_decide_eq_true in Hne);
    try (by apply bool_decide_eq_false in Hne; destruct Hne);
    unfold mbind, run_bind, bind, emit, lift, when, mret, run_ret, ret;
    cbn [take mapM fmap list_fmap];
    unfold mbind, run_bind, bind, emit, lift, when, mret, run_ret, ret;
    cbn [fst snd];
    rewrite <-?app_assoc; reflexivity.
Qed.

Lemma views_on_Raise sort_values str_contains df w e log :
  filter_stage df w = Raise e →
  views sort_values str_contains df w log = (log, Raise e).
Proof.
  intros Hf. unfold views, mbind, run_bind, bind, lift. by rewrite Hf.
Qed.

Lemma views_outcome_searchable sort_values str_contains filtered w :
  searchable str_contains w →
  ∃ found,
    shown_by_search str_contains filtered w = Ok found
    ∧ views_outcome sort_values str_contains filtered w
      = (shown_before_search sort_values filtered w ++ found
           ++ shown_after_search filtered,
         Ok (categorize filtered)).
Proof.
  unfold searchable, views_outcome, shown_by_search. intros [Hs|Hs].
  - rewrite bool_decide_eq_false_2 by (by intros ?). eauto.
  - destruct (str_contains (search_term w)); [|done].
    destruct (bool_decide _); eauto.
Qed.

Lemma views_outcome_unsearchable sort_values str_contains filtered w :
  ¬ searchable str_contains w →
  ∃ e,
    search_term w ≠ "" ∧ str_contains (search_term w) = Raise e
    ∧ views_outcome sort_values str_contains filtered w
      = (shown_before_search sort_values filtered w, Raise e).
Proof.
  unfold searchable, views_outcome, shown_by_search. intros Hs.
  destruct (decide (search_term w = "")) as [He|He]; [destruct Hs; by left|].
  rewrite bool_decide_eq_true_2 by done.
  destruct (str_contains (search_term w)) as [found|e] eqn:Hc.
  - destruct Hs. by right.
  - by exists e.
Qed.

(** ** The empty filtered set *)

Lemma sort_contract_nil sort_values asc :
  sort_contract sort_values → sort_values asc [] = [].
Proof. intros H. destruct (H asc []) as [Hp _]. by apply Permutation_nil_r. Qed.

Lemma reset_index_empty : reset_index ∅ = [].
Proof. by vm_compute. Qed.

(** C5, on the code.  One Connecticut heliport at 60 ft and a minimum
    elevation of 5000 ft: the filtered set is empty and no exception is
    raised, but the three statistics lines are written all the same, with
    NaN, followed by an empty bar chart and an empty table; only the map is
    replaced by the "no airports" line. *)
Theorem empty_set_still_shows_statistics :
  filter_stage heliport_frame unreachable_minimum = Ok []
  ∧ views stable_sort_values never_contains heliport_frame
      unreachable_minimum []
    = ([ st_write_ft "Minimum Elevation" nan;
         st_write_ft "Maximum Elevation" nan;
         st_write_ft "Average Elevation" nan;
         st_subheader "Types of Airports in Connecticut";
         st_bar_chart [];
         st_slider "How many airport rows to show?" 1 20 5;
         st_subheader "Airport Table";
         st_dataframe_table [];
         st_text_input "Search for an airport by name";
         st_subheader "No airports match the current filters.";
         st_write_count "Total airports shown:" 0;
         st_write_count "Number of airport types:" 0 ],
       Ok []).
Proof. split; by vm_compute. Qed.

(** ** Unconverted elevations downstream *)

Lemma filter_elevation_Raise data m e :
  filter_elevation data m = Raise e →
  e = TypeError ∧ ∃ (a : airport cell) s, a ∈ data ∧ elevation_ft a = CStr s.
Proof.
  induction data as [|a data IH]; simpl; [done|].
  destruct (elevation_ft a) as [x|s] eqn:Ha.
  - destruct (filter_elevation data m) as [kept|e'] eqn:Hk; [done|].
    intros [= ->]. destruct (IH eq_refl) as (-> & b & s & Hb & Hs).
    split; [done|]. exists b, s. split; [by right | done].
  - intros [= <-]. split; [done|]. exists a, s. split; [left | done].
Qed.

Lemma filter_elevation_str data m (a : airport cell) s :
  a ∈ data → elevation_ft a = CStr s →
  filter_elevation data m = Raise TypeError.
Proof.
  intros Ha Hs.
  destruct (filter_elevation data m) as [kept|e] eqn:Hk.
  - assert (Hnum : Forall numeric data)
      by (apply (filter_elevation_raises data m); eauto).
    rewrite Forall_forall in Hnum. destruct (Hnum a Ha) as [x Hx]. congruence.
  - by apply filter_elevation_Raise in Hk as [-> _].
Qed.

(** After a failed coercion the column still holds strings.  If one of them
    is in a row of the selected state (that also passes the scheduled-service
    filter), the comparison with [min_elevation] raises [TypeError] and the
    run ends there: nothing of the views is shown. *)
Theorem views_stop_on_unconverted_elevation
    (sort_values : bool → list (airport float64) → list (airport float64))
    (str_contains : string → result (string → bool))
    (df : list (airport cell)) (w : widgets) (log : list event)
    (a : airport cell) (s : string) :
  a ∈ filter_scheduled (filter_state df (state w)) (show_scheduled w) →
  elevation_ft a = CStr s →
  filter_stage df w = Raise TypeError
  ∧ views sort_values str_contains df w log = (log, Raise TypeError).
Proof.
  intros Ha Hs.
  assert (Hf : filter_stage df w = Raise TypeError).
  { unfold filter_stage.
    by rewrite (filter_elevation_str _ (min_elevation w) a s Ha Hs). }
  split; [done|].
  unfold views, mbind, run_bind, bind, lift. by rewrite Hf.
Qed.

Lemma views_stop_on_unconverted_elevation_witness :
  filter_stage (load malformed_rows) vermont_widgets = Raise TypeError
  ∧ views stable_sort_values never_contains (load malformed_rows)
      vermont_widgets []
    = ([], Raise TypeError).
Proof.
  apply (views_stop_on_unconverted_elevation stable_sort_values never_contains
           (load malformed_rows) vermont_widgets []
           (map_state (csv_field "Charlie Field" "US-VT" (CStr "n/a"))) "n/a").
  - vm_compute. left.
  - reflexivity.
Defined.

(** ** The filter stage after a successful coercion *)

Lemma assign_elevation_numeric (df : list (airport cell)) col :
  Forall numeric (assign_elevation df col).
Proof.
  unfold assign_elevation. revert col.
  induction df as [|a df IH]; intros [|x col]; simpl; constructor; auto.
  by exists x.
Qed.

(** When [astype(float)] succeeds, every cell of the frame is a number, and
    the filter stage returns whatever the widgets say. *)
Lemma filter_stage_after_coercion
    (float_of_string : string → option float64)
    (df : list (airport cell)) (w : widgets) col :
  astype_float float_of_string (elevation_col df) = Ok col →
  ∃ out, filter_stage (assign_elevation df col) w = Ok out.
Proof.
  intros _. unfold filter_stage.
  destruct (filter_elevation_total
              (filter_scheduled
                 (filter_state (assign_elevation df col) (state w))
                 (show_scheduled w))
              (min_elevation w)) as [kept ->]; [|by eexists].
  apply Forall_forall. intros a Ha.
  apply filter_scheduled_elem in Ha as [Ha _].
  apply list_elem_of_filter in Ha as [_ Ha].
  pose proof (assign_elevation_numeric df col) as Hnum.
  rewrite Forall_forall in Hnum. by apply Hnum.
Qed.

(** ** A run on a column that converts *)

Lemma page_from_start sort_values str_contains df w :
  page sort_values str_contains df w []
  = views sort_values str_contains df w (widgets_shown df).
Proof. reflexivity. Qed.

(** When [astype(float)] succeeds the run shows the widgets and then the
    views of the frame the filter stage returns. *)
Lemma script_converted
    (float_of_string : string → option float64)
    (sort_values : bool → list (airport float64) → list (airport float64))
    (str_contains : string → result (string → bool))
    (rows : list (csv_row cell)) (w : widgets) col :
  astype_float float_of_string (elevation_col (load rows)) = Ok col →
  ∃ out,
    filter_stage (assign_elevation (load rows) col) w = Ok out
    ∧ script float_of_string sort_values str_contains rows w []
      = (widgets_shown (assign_elevation (load rows) col)
           ++ (views_outcome sort_values str_contains
                 (sort_values false out) w).1,
         (views_outcome sort_values str_contains (sort_values false out) w).2).
Proof.
  intros Hcol.
  destruct (filter_stage_after_coercion float_of_string (load rows) w col Hcol)
    as [out Hf].
  exists out. split; [done|].
  unfold script. unfold mbind at 1. unfold run_bind, bind at 1.
  rewrite (coerce_elevation_Ok float_of_string _ col [] Hcol).
  by rewrite page_from_start, (views_shown _ _ _ _ out _ Hf).
Qed.

Ltac not_errors := repeat constructor; intros H; exact H.

Lemma not_error_widgets df : Forall (λ e, ¬ is_error e) (widgets_shown df).
Proof. unfold widgets_shown. not_errors. Qed.

Lemma not_error_before_search sort_values filtered w :
  Forall (λ e, ¬ is_error e) (shown_before_search sort_values filtered w).
Proof.
  unfold shown_before_search. rewrite !Forall_app.
  repeat split; try not_errors.
  - apply Forall_fmap, Forall_forall. intros a _ H. exact H.
  - destruct (bool_decide _); not_errors.
Qed.

Lemma not_error_by_search str_contains filtered w found :
  shown_by_search str_contains filtered w = Ok found →
  Forall (λ e, ¬ is_error e) found.
Proof.
  unfold shown_by_search. destruct (bool_decide _).
  - destruct (str_contains _); intros [= <-]. not_errors.
  - intros [= <-]. constructor.
Qed.

Lemma not_error_after_search filtered :
  Forall (λ e, ¬ is_error e) (shown_after_search filtered).
Proof.
  unfold shown_after_search. rewrite !Forall_app.
  repeat split; try not_errors; destruct (bool_decide _); not_errors.
Qed.

(** What the views show when no row passes the filters. *)
Lemma shown_on_empty_set sort_values w :
  shown_before_search sort_values [] w
  = [ st_write_ft "Minimum Elevation" nan;
      st_write_ft "Maximum Elevation" nan;
      st_write_ft "Average Elevation" nan;
      st_subheader ("Types of Airports in " +:+ state w);
      st_bar_chart [];
      st_slider "How many airport rows to show?" 1 20 5;
      st_subheader "Airport Table";
      st_dataframe_table [];
      st_text_input "Search for an airport by name" ]
  ∧ shown_after_search []
    = [ st_subheader "No airports match the current filters.";
        st_write_count "Total airports shown:" 0;
        st_write_count "Number of airport types:" 0 ].
Proof.
  split; [|reflexivity].
  unfold shown_before_search, groupby_type_size. cbn [foldr].
  rewrite reset_index_empty, !take_nil.
  rewrite bool_decide_eq_false_2 by (by intros ?). reflexivity.
Qed.

(** On a column that converts, when no row passes the filters and the search
    box is empty or holds a pattern that compiles, nothing is raised: the run
    shows no error and goes to its end, and among what it shows are the
    statistics lines, with NaN, and the "no airports" line. *)
Theorem empty_set_raises_nothing
    (float_of_string : string → option float64)
    (sort_values : bool → list (airport float64) → list (airport float64))
    (str_contains : string → result (string → bool))
    (rows : list (csv_row cell)) (w : widgets) (col : list float64) :
  sort_contract sort_values →
  astype_float float_of_string (elevation_col (load rows)) = Ok col →
  filter_stage (assign_elevation (load rows) col) w = Ok [] →
  searchable str_contains w →
  ∃ shown,
    script float_of_string sort_values str_contains rows w [] = (shown, Ok [])
    ∧ Forall (λ e, ¬ is_error e) shown
    ∧ st_write_ft "Minimum Elevation" nan ∈ shown
    ∧ st_write_ft "Maximum Elevation" nan ∈ shown
    ∧ st_write_ft "Average Elevation" nan ∈ shown
    ∧ st_subheader "No airports match the current filters." ∈ shown.
Proof.
  intros Hsort Hcol Hf Hs.
  destruct (script_converted float_of_string sort_values str_contains rows w
              col Hcol) as (out & Hf' & ->).
  rewrite Hf in Hf'. injection Hf' as <-.
  rewrite (sort_contract_nil sort_values false Hsort).
  destruct (views_outcome_searchable sort_values str_contains [] w Hs)
    as (found & Hfound & ->).
  destruct (shown_on_empty_set sort_values w) as [Hbefore Hafter].
  eexists. cbn [fst snd]. split; [reflexivity|].
  split.
  { rewrite !Forall_app.
    eauto using not_error_widgets, not_error_before_search,
      not_error_by_search, not_error_after_search. }
  rewrite Hbefore, Hafter.
  repeat split; rewrite !elem_of_app, !elem_of_cons; auto 20.
Qed.

Lemma empty_set_raises_nothing_witness :
  ∃ shown,
    script float_of_digits stable_sort_values never_contains
      [ csv_field "Alpha Field" "US-NH" (CStr "488") ] vermont_widgets []
    = (shown, Ok [])
    ∧ Forall (λ e, ¬ is_error e) shown
    ∧ st_write_ft "Minimum Elevation" nan ∈ shown
    ∧ st_write_ft "Maximum Elevation" nan ∈ shown
    ∧ st_write_ft "Average Elevation" nan ∈ shown
    ∧ st_subheader "No airports match the current filters." ∈ shown.
Proof.
  apply (empty_set_raises_nothing float_of_digits stable_sort_values
           never_contains [ csv_field "Alpha Field" "US-NH" (CStr "488") ]
           vermont_widgets [fin (Z2Qc 488)]).
  - apply stable_sort_values_contract.
  - reflexivity.
  - reflexivity.
  - by left.
Defined.

(** ** The filter stage, exactly *)

Lemma set_elevation_as_cells (a : airport float64) :
  set_elevation (as_cells a) (elevation_ft a) = a.
Proof. by destruct a as [[] ?]. Qed.

Lemma as_cells_inj (a b : airport float64) : as_cells a = as_cells b → a = b.
Proof.
  destruct a as [[] ?], b as [[] ?]. unfold as_cells, set_elevation. simpl.
  by intros [= -> -> -> -> -> -> -> -> ->].
Qed.

Lemma filter_elevation_elem data m kept (a : airport float64) :
  filter_elevation data m = Ok kept →
  a ∈ kept ↔ as_cells a ∈ data ∧ float_ge (elevation_ft a) m = true.
Proof.
  intros Hk. split; [by apply (filter_elevation_Ok data m kept Hk)|].
  revert kept Hk. induction data as [|b data IH]; simpl; intros kept Hk [Hin Hge].
  - by apply elem_of_nil in Hin.
  - destruct (elevation_ft b) as [x|s] eqn:Hb; [|done].
    destruct (filter_elevation data m) as [kept'|e]; [|done].
    apply elem_of_cons in Hin as [Heq|Hin].
    + subst b. simpl in Hb. injection Hb as <-.
      rewrite Hge in Hk. injection Hk as <-.
      rewrite set_elevation_as_cells. left.
    + specialize (IH kept' eq_refl (conj Hin Hge)).
      destruct (float_ge x m); injection Hk as <-; [by right | done].
Qed.

(** The filter stage keeps exactly the rows of the frame that meet the five
    predicates. *)
Theorem filter_stage_exact (df : list (airport cell)) (w : widgets)
    (out : list (airport float64)) :
  filter_stage df w = Ok out →
  ∀ a : airport float64,
    a ∈ out ↔
    as_cells a ∈ df
    ∧ State a = Some (state w)
    ∧ (show_scheduled w = true → scheduled_service a = "yes")
    ∧ float_ge (elevation_ft a) (min_elevation w) = true
    ∧ type a ∈ airport_types w
    ∧ notnull (latitude_deg a) ∧ notnull (longitude_deg a).
Proof.
  intros (kept & Hk & ->)%filter_stage_Ok a.
  unfold dropna_coords, filter_type.
  rewrite !list_elem_of_filter, (filter_elevation_elem _ _ _ a Hk).
  rewrite filter_scheduled_elem. unfold filter_state.
  rewrite list_elem_of_filter.
  destruct a as [[] ?]; simpl. tauto.
Qed.

Lemma filter_stage_exact_witness :
  ct_airport "Hospital Helipad" "heliport" 41 (fin (Z2Qc 60))
    ∈ connecticut_kept ↔
  as_cells (ct_airport "Hospital Helipad" "heliport" 41 (fin (Z2Qc 60)))
    ∈ connecticut_frame
  ∧ State (ct_airport "Hospital Helipad" "heliport" 41 (fin (Z2Qc 60)))
    = Some (state connecticut_all)
  ∧ (show_scheduled connecticut_all = true
     → scheduled_service
         (ct_airport "Hospital Helipad" "heliport" 41 (fin (Z2Qc 60)))
       = "yes")
  ∧ float_ge
      (elevation_ft
         (ct_airport "Hospital Helipad" "heliport" 41 (fin (Z2Qc 60))))
      (min_elevation connecticut_all) = true
  ∧ type (ct_airport "Hospital Helipad" "heliport" 41 (fin (Z2Qc 60)))
    ∈ airport_types connecticut_all
  ∧ notnull
      (latitude_deg
         (ct_airport "Hospital Helipad" "heliport" 41 (fin (Z2Qc 60))))
  ∧ notnull
      (longitude_deg
         (ct_airport "Hospital Helipad" "heliport" 41 (fin (Z2Qc 60)))).
Proof.
  apply (filter_stage_exact connecticut_frame connecticut_all
           connecticut_kept).
  by vm_compute.
Defined.

(** ** Narrowing the widgets *)

Lemma Z2Qc_le (m m' : Z) : (m ≤ m')%Z → Z2Qc m ≤ Z2Qc m'.
Proof.
  intros H. unfold Qcle, Z2Qc. cbn [this Q2Qc]. rewrite !Qred_correct.
  unfold Qle. simpl. lia.
Qed.

Lemma float_ge_mono x (m m' : Z) :
  (m ≤ m')%Z → float_ge x m' = true → float_ge x m = true.
Proof.
  intros Hm. destruct x as [|q]; simpl; [done|].
  rewrite !bool_decide_eq_true. intros H.
  eapply Qcle_trans; [by apply Z2Qc_le | done].
Qed.

Lemma sublist_filter_impl {A} (P Q : A → Prop)
    `{∀ x, Decision (P x)} `{∀ x, Decision (Q x)} (l' l : list A) :
  (∀ x, P x → Q x) → l' `sublist_of` l → filter P l' `sublist_of` filter Q l.
Proof.
  intros HPQ. induction 1 as [|x l' l _ IH|x l' l _ IH].
  - done.
  - rewrite !filter_cons. destruct (decide (P x)) as [HP|HP].
    + rewrite decide_True by auto. by constructor.
    + destruct (decide (Q x)); [by constructor | done].
  - rewrite (filter_cons Q). destruct (decide (Q x)); [by constructor | done].
Qed.

Lemma filter_elevation_sublist data' data (m m' : Z) kept' kept :
  data' `sublist_of` data → (m ≤ m')%Z →
  filter_elevation data' m' = Ok kept' →
  filter_elevation data m = Ok kept →
  kept' `sublist_of` kept.
Proof.
  intros Hsub Hm. revert kept' kept.
  induction Hsub as [|a data' data _ IH|a data' data _ IH];
    simpl; intros kept' kept Hk' Hk.
  - injection Hk' as <-. apply sublist_nil_l.
  - destruct (elevation_ft a) as [x|s]; [|done].
    destruct (filter_elevation data' m') as [k'|]; [|done].
    destruct (filter_elevation data m) as [k|]; [|done].
    specialize (IH k' k eq_refl eq_refl).
    destruct (float_ge x m') eqn:Hge'.
    + rewrite (float_ge_mono x m m' Hm Hge') in Hk.
      injection Hk' as <-. injection Hk as <-. by constructor.
    + injection Hk' as <-.
      destruct (float_ge x m); injection Hk as <-; [by constructor | done].
  - destruct (elevation_ft a) as [x|s]; [|done].
    destruct (filter_elevation data m) as [k|]; [|done].
    specialize (IH kept' k Hk' eq_refl).
    destruct (float_ge x m); injection Hk as <-; [by constructor | done].
Qed.

Lemma filter_scheduled_narrow {E} (data' data : list (airport E)) b b' :
  data' `sublist_of` data → (b = true → b' = true) →
  filter_scheduled data' b' `sublist_of` filter_scheduled data b.
Proof.
  intros Hsub Hb. destruct b, b'; simpl.
  - by apply sublist_filter_impl.
  - by specialize (Hb eq_refl).
  - etrans; [apply sublist_filter | done].
  - done.
Qed.

(** Moving the widgets towards a stricter selection (ticking the scheduled
    box, raising the minimum elevation, unticking types) for the same state
    only removes rows: what the filter stage then returns is a sub-sequence
    of what it returned before. *)
Theorem filter_stage_narrowing (df : list (airport cell)) (w w' : widgets)
    (out out' : list (airport float64)) :
  state w' = state w →
  (show_scheduled w = true → show_scheduled w' = true) →
  (min_elevation w ≤ min_elevation w')%Z →
  airport_types w' ⊆ airport_types w →
  filter_stage df w = Ok out →
  filter_stage df w' = Ok out' →
  out' `sublist_of` out.
Proof.
  intros Hst Hsched Hmin Hty (kept & Hk & ->)%filter_stage_Ok
    (kept' & Hk' & ->)%filter_stage_Ok.
  rewrite Hst in Hk'.
  assert (Hkept : kept' `sublist_of` kept).
  { apply (filter_elevation_sublist
             (filter_scheduled (filter_state df (state w)) (show_scheduled w'))
             (filter_scheduled (filter_state df (state w)) (show_scheduled w))
             (min_elevation w) (min_elevation w')); [|done..].
    by apply filter_scheduled_narrow. }
  unfold dropna_coords, filter_type.
  apply sublist_filter_impl; [done|].
  apply sublist_filter_impl; [|done].
  intros a Ha. by apply Hty.
Qed.

Lemma filter_stage_narrowing_witness :
  [] `sublist_of`
    [ set_elevation
        (Airport (CsvRow (Some "Hospital Helipad") (Some "Hartford")
                    (Some "heliport") (Some "US-CT") (Some (Z2Qc 41))
                    (Some (Z2Qc (-72))) (CNum (fin (Z2Qc 60))) "no")
                 (Some "Connecticut"))
        (fin (Z2Qc 60)) ].
Proof.
  apply (filter_stage_narrowing heliport_frame connecticut_defaults
           connecticut_narrowed).
  - reflexivity.
  - intros H. reflexivity.
  - simpl. lia.
  - simpl. set_solver.
  - by vm_compute.
  - by vm_compute.
Defined.

(** ** How a run can end *)

(** A run of the script ends in one of three ways.  If [astype(float)]
    fails, the error message is shown and the run stops with
    [StreamlitAPIException] at the page set-up that follows it.  If it
    succeeds no error message is ever shown, and the run goes to its end
    unless the search box is not empty and the search of line 147 raises (on
    a pattern that does not compile, say), in which case the run stops there
    with that exception.  The [TypeError] of line 74 ends no run: a string
    never reaches the comparison. *)
Theorem run_outcome
    (float_of_string : string → option float64)
    (sort_values : bool → list (airport float64) → list (airport float64))
    (str_contains : string → result (string → bool))
    (rows : list (csv_row cell)) (w : widgets) :
  ∃ shown outcome,
    script float_of_string sort_values str_contains rows w []
    = (shown, outcome)
    ∧ ((∃ e, astype_float float_of_string (elevation_col (load rows))
             = Raise e
             ∧ shown = [st_error "Error converting elevation to float: " e]
             ∧ outcome = Raise StreamlitAPIException)
       ∨ (∃ col, astype_float float_of_string (elevation_col (load rows))
                 = Ok col
                 ∧ Forall (λ e, ¬ is_error e) shown
                 ∧ ((searchable str_contains w ∧ ∃ frame, outcome = Ok frame)
                    ∨ (search_term w ≠ ""
                       ∧ ∃ e', str_contains (search_term w) = Raise e'
                               ∧ outcome = Raise e')))).
Proof.
  destruct (astype_float float_of_string (elevation_col (load rows)))
    as [col|e] eqn:Hcol.
  - destruct (script_converted float_of_string sort_values str_contains rows w
                col Hcol) as (out & Hf & ->).
    eexists _, _. split; [reflexivity|]. right. exists col. split; [done|].
    destruct (decide (searchable str_contains w)) as [Hs|Hs].
    + destruct (views_outcome_searchable sort_values str_contains
                  (sort_values false out) w Hs) as (found & Hfound & ->).
      cbn [fst snd]. split.
      * rewrite !Forall_app.
        eauto using not_error_widgets, not_error_before_search,
          not_error_by_search, not_error_after_search.
      * left. eauto.
    + destruct (views_outcome_unsearchable sort_values str_contains
                  (sort_values false out) w Hs) as (e' & Hne & He' & ->).
      cbn [fst snd]. split.
      * rewrite Forall_app.
        eauto using not_error_widgets, not_error_before_search.
      * right. eauto.
  - eexists _, _. split; [|left; exists e; eauto].
    unfold script, mbind, run_bind, bind.
    rewrite (coerce_elevation_Raise _ _ e [] Hcol).
    apply (page_after_output _ _ _ _ _ []).
Qed.

(** A frame whose elevation cells all read as numbers, and a search box
    that is empty or holds a pattern that compiles: the coercion step shows
    nothing, and the script runs to its end without raising and without an
    error message. *)
Theorem script_on_parsable_elevations
    (float_of_string : string → option float64)
    (sort_values : bool → list (airport float64) → list (airport float64))
    (str_contains : string → result (string → bool))
    (rows : list (csv_row cell)) (w : widgets) (col : list float64) :
  astype_float float_of_string (elevation_col (load rows)) = Ok col →
  searchable str_contains w →
  ∃ shown frame,
    script float_of_string sort_values str_contains rows w []
    = (shown, Ok frame)
    ∧ Forall (λ e, ¬ is_error e) shown.
Proof.
  intros Hcol Hs.
  destruct (script_converted float_of_string sort_values str_contains rows w
              col Hcol) as (out & Hf & ->).
  destruct (views_outcome_searchable sort_values str_contains
              (sort_values false out) w Hs) as (found & Hfound & ->).
  eexists _, _. split; [reflexivity|]. cbn [fst].
  rewrite !Forall_app.
  eauto using not_error_widgets, not_error_before_search,
    not_error_by_search, not_error_after_search.
Qed.

Lemma script_on_parsable_elevations_witness :
  ∃ shown frame,
    script float_of_digits stable_sort_values never_contains parsable_rows
      vermont_widgets []
    = (shown, Ok frame)
    ∧ Forall (λ e, ¬ is_error e) shown.
Proof.
  apply (script_on_parsable_elevations float_of_digits stable_sort_values
           never_contains parsable_rows vermont_widgets
           [fin (Z2Qc 488); fin (Z2Qc 1200)]).
  - reflexivity.
  - by left.
Defined.

(** ** Coercion of a column that is already numeric *)

Lemma astype_float_numeric float_of_string (df : list (airport cell)) :
  Forall numeric df →
  ∃ col, astype_float float_of_string (elevation_col df) = Ok col
         ∧ assign_elevation df col = df.
Proof.
  induction 1 as [|a df [x Hx] _ (col & Hcol & Hdf)].
  - by exists [].
  - exists (x :: col). unfold elevation_col in *. rewrite fmap_cons.
    cbn [astype_float]. rewrite Hx. cbn [cell_to_float]. rewrite Hcol.
    split; [done|]. unfold assign_elevation in *.
    cbn [zip_with]. rewrite Hdf. f_equal.
    destruct a as [[] ?]. simpl in *. by subst.
Qed.

(** On a frame whose elevation cells are all floats (NaN included), as
    [read_csv] delivers a numeric column, the coercion step changes nothing
    and shows nothing, whatever [float] would do on strings. *)
Theorem coerce_elevation_numeric
    (float_of_string : string → option float64)
    (df : list (airport cell)) (log : list event) :
  Forall numeric df →
  coerce_elevation float_of_string df log = (log, Ok df).
Proof.
  intros (col & Hcol & Hdf)%(astype_float_numeric float_of_string).
  by rewrite (coerce_elevation_Ok float_of_string df col log Hcol), Hdf.
Qed.

Lemma coerce_elevation_numeric_witness :
  coerce_elevation float_of_digits heliport_frame [] = ([], Ok heliport_frame).
Proof.
  apply (coerce_elevation_numeric float_of_digits heliport_frame []).
  repeat constructor. by eexists.
Defined.

(** ** The working set and the state select box *)

Lemma load_State_option {E} (rows : list (csv_row E)) (a : airport E) :
  a ∈ load rows → ∃ s, s ∈ state_options ∧ State a = Some s.
Proof.
  intros (code & display & _ & _ & _ & _ & Hs & HS)%load_spec.
  exists display. split; [|done].
  apply elem_of_list_to_map_2 in Hs.
  unfold state_options. apply list_elem_of_fmap. by exists (code, display).
Qed.

Lemma load_sublist {E} (rows : list (csv_row E)) :
  (λ a : airport E, row a) <$> load rows `sublist_of` rows.
Proof.
  unfold load, dropna_required.
  etrans; [apply fmap_sublist, sublist_filter|].
  assert (Hrow : ∀ l : list (csv_row E),
             (λ a : airport E, row a) <$> (map_state <$> l) = l).
  { induction l as [|r l IH]; [done|]. rewrite !fmap_cons, IH. done. }
  rewrite Hrow. apply sublist_filter.
Qed.

Lemma bucket_lengths_other {E} (a : airport E) (df : list (airport E))
    (options : list string) s :
  s ∉ options → State a = Some s →
  sum_list ((λ o, length (filter_state (a :: df) o)) <$> options)
  = sum_list ((λ o, length (filter_state df o)) <$> options).
Proof.
  intros Hs Ha. unfold filter_state.
  induction options as [|o options IH]; [done|].
  apply not_elem_of_cons in Hs as [Hne Hs]. rewrite !fmap_cons. simpl.
  rewrite filter_cons, decide_False, IH; [done|done|].
  rewrite Ha. by intros [= ->].
Qed.

Lemma bucket_lengths_cons {E} (a : airport E) (df : list (airport E))
    (options : list string) s :
  NoDup options → s ∈ options → State a = Some s →
  sum_list ((λ o, length (filter_state (a :: df) o)) <$> options)
  = S (sum_list ((λ o, length (filter_state df o)) <$> options)).
Proof.
  intros Hnd Hs Ha.
  induction Hnd as [|o options Ho Hnd IH]; [by apply elem_of_nil in Hs|].
  rewrite !fmap_cons. simpl. unfold filter_state at 1. rewrite filter_cons.
  apply elem_of_cons in Hs as [->|Hs].
  - rewrite decide_True by done. simpl.
    by rewrite (bucket_lengths_other a df options o Ho Ha).
  - rewrite decide_False.
    + rewrite IH by done. unfold filter_state. lia.
    + rewrite Ha. intros [= ->]. by destruct Ho.
Qed.

Lemma state_options_NoDup : NoDup state_options.
Proof. apply (bool_decide_unpack _). by vm_compute. Qed.

(** The working set keeps rows of the file in their order; each of its
    records carries one of the six names the state select box offers, so it
    shows up under exactly one choice of the box: the sizes of the six
    per-state views add up to the size of the working set, and a name that is
    not on offer selects nothing. *)
Theorem working_set_by_state {E} (rows : list (csv_row E)) :
  (λ a : airport E, row a) <$> load rows `sublist_of` rows
  ∧ (∀ a : airport E, a ∈ load rows →
       ∃ s, s ∈ state_options ∧ State a = Some s)
  ∧ sum_list ((λ s, length (filter_state (load rows) s)) <$> state_options)
    = length (load rows)
  ∧ (∀ s, s ∉ state_options → filter_state (load rows) s = []).
Proof.
  split; [apply load_sublist|]. split; [apply load_State_option|]. split.
  - pose proof (@load_State_option E rows) as Hopt.
    induction (load rows) as [|a df IH].
    + by vm_compute.
    + destruct (Hopt a) as (s & Hs & Ha); [left|].
      rewrite (bucket_lengths_cons a df state_options s
                 state_options_NoDup Hs Ha).
      simpl. f_equal. apply IH. intros b Hb. apply Hopt. by right.
  - intros s Hs. unfold filter_state.
    destruct (filter _ (load rows)) as [|a l] eqn:Hf; [done|].
    assert (Ha : a ∈ filter (λ a : airport E, State a = Some s) (load rows))
      by (rewrite Hf; left).
    apply list_elem_of_filter in Ha as [HS Ha].
    destruct (load_State_option rows a Ha) as (s' & Hs' & HS').
    rewrite HS in HS'. injection HS' as ->. done.
Qed.

(** ** Composing [filter_scheduled] *)

(** Applying [filter_scheduled] twice is applying it once, with the flag set
    if it was set in either call; and it commutes with the state filter, so
    the rows shown with the box ticked are the rows of [filtered_all] that
    are in the selected state. *)
Theorem filter_scheduled_compose {E} (df : list (airport E)) (b b' : bool)
    (st : string) :
  filter_scheduled (filter_scheduled df b) b' = filter_scheduled df (b || b')
  ∧ filter_scheduled (filter_state df st) b
    = filter_state (filter_scheduled df b) st
  ∧ filter_scheduled (filter_state df st) true
    = filter_state (filtered_all df) st.
Proof.
  assert (Hcomm : ∀ c, filter_scheduled (filter_state df st) c
                       = filter_state (filter_scheduled df c) st).
  { intros [|]; simpl; [|done]. unfold filter_state.
    rewrite !list_filter_filter. apply list_filter_iff. tauto. }
  split; [|split; [apply Hcomm | apply (Hcomm true)]].
  destruct b, b'; simpl; try done.
  apply list_filter_filter_l. done.
Qed.

(** ** The sorted frame *)


Lemma filter_stage_fin df w out (a : airport float64) :
  filter_stage df w = Ok out → a ∈ out → ∃ q, elevation_ft a = fin q.
Proof.
  intros (kept & Hk & ->)%filter_stage_Ok Ha.
  unfold dropna_coords, filter_type in Ha.
  apply list_elem_of_filter in Ha as [_ Ha].
  apply list_elem_of_filter in Ha as [_ Ha].
  apply (filter_elevation_Ok _ _ _ Hk) in Ha as [_ Hge].
  destruct (elevation_ft a) as [|q]; [done | by exists q].
Qed.

Lemma sorted_strongly sort_values asc data :
  sort_contract sort_values →
  StronglySorted (row_order asc) (sort_values asc data).
Proof.
  intros Hsort. apply Sorted_StronglySorted; [apply _|].
  apply (Hsort asc data).
Qed.

(** The frame is sorted from the highest airport down: its first row (the
    "Sample Airport") has the maximum elevation that is displayed, its last
    row the minimum, and the rows the table shows are at least as high as
    every row it leaves out. *)
Theorem sorted_frame_extremes
    (sort_values : bool → list (airport float64) → list (airport float64))
    (df : list (airport cell)) (w : widgets) (out : list (airport float64)) :
  sort_contract sort_values →
  filter_stage df w = Ok out →
  (∀ first rest, sort_values false out = first :: rest →
     elevation_ft first = (elevation_stats (sort_values false out)).1.2)
  ∧ (∀ init lowest, sort_values false out = init ++ [lowest] →
       elevation_ft lowest = (elevation_stats (sort_values false out)).1.1)
  ∧ (∀ (a b : airport float64),
       a ∈ take (row_num w) (sort_values false out) →
       b ∈ drop (row_num w) (sort_values false out) →
       fle (elevation_ft b) (elevation_ft a)).
Proof.
  intros Hsort Hf.
  pose proof (sorted_strongly sort_values false out Hsort) as Hss.
  destruct (Hsort false out) as [Hp _].
  assert (Hfin : ∀ a : airport float64,
             a ∈ sort_values false out → ∃ q, elevation_ft a = fin q).
  { intros a Ha. rewrite Hp in Ha. eauto using filter_stage_fin. }
  assert (Hstats : ∀ (a : airport float64) q,
             a ∈ sort_values false out → elevation_ft a = fin q →
             ∃ lo hi,
               (elevation_stats (sort_values false out)).1.1 = fin lo
               ∧ (elevation_stats (sort_values false out)).1.2 = fin hi
               ∧ (∃ l : airport float64,
                     l ∈ sort_values false out ∧ elevation_ft l = fin lo)
               ∧ (∃ h : airport float64,
                     h ∈ sort_values false out ∧ elevation_ft h = fin hi)
               ∧ lo ≤ q ∧ q ≤ hi).
  { intros a q Ha Hq.
    destruct (elevation_stats_present _ a q Ha Hq)
      as (lo & hi & avg & -> & _ & Hlo & Hhi & Hall).
    exists lo, hi. simpl. split; [done|]. split; [done|].
    unfold elevation_col in Hlo, Hhi.
    apply list_elem_of_fmap in Hlo as (l & Hl & Hlin).
    apply list_elem_of_fmap in Hhi as (h & Hh & Hhin).
    split; [by exists l|]. split; [by exists h|].
    apply Hall. unfold elevation_col. apply list_elem_of_fmap. by exists a. }
  split; [|split].
  - intros first rest Heq.
    assert (Hin : first ∈ sort_values false out) by (rewrite Heq; left).
    destruct (Hfin first Hin) as [q Hq].
    destruct (Hstats first q Hin Hq)
      as (lo & hi & _ & -> & _ & (h & Hh & Hhq) & _ & Hle).
    rewrite Hq. f_equal. apply Qcle_antisym; [done|].
    rewrite Heq in Hss, Hh. apply StronglySorted_inv in Hss as [_ Hall].
    apply elem_of_cons in Hh as [->|Hh]; [by (rewrite Hq in Hhq; injection Hhq as ->)|].
    rewrite Forall_forall in Hall. specialize (Hall h Hh).
    unfold row_order in Hall. by rewrite Hq, Hhq in Hall.
  - intros init lowest Heq.
    assert (Hin : lowest ∈ sort_values false out)
      by (rewrite Heq; apply elem_of_app; right; left).
    destruct (Hfin lowest Hin) as [q Hq].
    destruct (Hstats lowest q Hin Hq)
      as (lo & hi & -> & _ & (l & Hl & Hlq) & _ & Hle & _).
    rewrite Hq. f_equal. apply Qcle_antisym; [|done].
    rewrite Heq in Hss, Hl.
    apply elem_of_app in Hl as [Hl|Hl%list_elem_of_singleton].
    + pose proof (StronglySorted_app_1_elem_of _ _ _ l lowest Hss Hl) as Hr.
      unfold row_order in Hr. rewrite Hq, Hlq in Hr. apply Hr. left.
    + subst l. rewrite Hq in Hlq. by injection Hlq as ->.
  - intros a b Ha Hb.
    rewrite <-(take_drop (row_num w) (sort_values false out)) in Hss.
    pose proof (StronglySorted_app_1_elem_of _ _ _ a b Hss Ha Hb) as Hr.
    destruct (Hfin a) as [qa Hqa];
      [eapply elem_of_sublist; [exact Ha | apply sublist_take]|].
    destruct (Hfin b) as [qb Hqb];
      [eapply elem_of_sublist; [exact Hb | apply sublist_drop]|].
    unfold row_order in Hr. by rewrite Hqa, Hqb in *.
Qed.

Lemma connecticut_filter_stage :
  filter_stage connecticut_frame connecticut_all = Ok connecticut_kept.
Proof. by vm_compute. Qed.

Lemma sorted_frame_extremes_witness :
  (∀ first rest, stable_sort_values false connecticut_kept = first :: rest →
     elevation_ft first
     = (elevation_stats (stable_sort_values false connecticut_kept)).1.2)
  ∧ (∀ init lowest,
       stable_sort_values false connecticut_kept = init ++ [lowest] →
       elevation_ft lowest
       = (elevation_stats (stable_sort_values false connecticut_kept)).1.1)
  ∧ (∀ (a b : airport float64),
       a ∈ take (row_num connecticut_all)
              (stable_sort_values false connecticut_kept) →
       b ∈ drop (row_num connecticut_all)
              (stable_sort_values false connecticut_kept) →
       fle (elevation_ft b) (elevation_ft a)).
Proof.
  exact (sorted_frame_extremes stable_sort_values connecticut_frame
           connecticut_all connecticut_kept stable_sort_values_contract
           connecticut_filter_stage).
Defined.

(** ** The category column *)

Lemma elevation_level_mono (a b : airport float64) qa qb :
  elevation_ft a = fin qa → elevation_ft b = fin qb → qa ≤ qb →
  (level_rank (elevation_level a) ≤ level_rank (elevation_level b))%nat.
Proof.
  intros Ha Hb Hab.
  rewrite (elevation_level_fin a qa Ha), (elevation_level_fin b qb Hb).
  repeat case_decide; simpl; try lia; exfalso; eauto using Qcle_trans.
Qed.

Lemma categorize_fst (l : list (airport float64)) : (categorize l).*1 = l.
Proof.
  unfold categorize. induction l as [|a l IH]; [done|].
  rewrite !fmap_cons. simpl. by f_equal.
Qed.

Lemma categorize_ranks_sorted (l : list (airport float64)) :
  (∀ a : airport float64, a ∈ l → ∃ q, elevation_ft a = fin q) →
  StronglySorted (row_order false) l →
  StronglySorted (λ r r', (level_rank r' ≤ level_rank r)%nat) (categorize l).*2.
Proof.
  intros Hfin Hss. unfold categorize.
  induction Hss as [|a l Hl IH Hall]; [constructor|].
  rewrite !fmap_cons. constructor.
  - apply IH. intros b Hb. apply Hfin. by right.
  - rewrite <-list_fmap_compose, Forall_fmap.
    rewrite Forall_forall in Hall |- *. intros b Hb. simpl.
    destruct (Hfin a) as [qa Hqa]; [left|].
    destruct (Hfin b) as [qb Hqb]; [by right|].
    apply (elevation_level_mono b a qb qa Hqb Hqa).
    specialize (Hall b Hb). unfold row_order in Hall.
    by rewrite Hqa, Hqb in Hall.
Qed.

(** The frame the script ends with, on a column that converts and when the
    search box is empty or its search does not raise, so that the run
    reaches its end: the rows the filter stage kept, each once, in
    non-increasing elevation order, each with its category; so the category
    column reads High first, then Medium, then Low. *)
Theorem final_frame_categories
    (float_of_string : string → option float64)
    (sort_values : bool → list (airport float64) → list (airport float64))
    (str_contains : string → result (string → bool))
    (rows : list (csv_row cell)) (w : widgets) (col : list float64)
    (out : list (airport float64)) :
  sort_contract sort_values →
  astype_float float_of_string (elevation_col (load rows)) = Ok col →
  filter_stage (assign_elevation (load rows) col) w = Ok out →
  searchable str_contains w →
  ∃ shown frame,
    script float_of_string sort_values str_contains rows w []
    = (shown, Ok frame)
    ∧ frame.*1 ≡ₚ out
    ∧ (∀ a l, (a, l) ∈ frame → l = elevation_level a)
    ∧ StronglySorted (λ l l', (level_rank l' ≤ level_rank l)%nat) frame.*2.
Proof.
  intros Hsort Hcol Hf Hs.
  destruct (script_converted float_of_string sort_values str_contains rows w
              col Hcol) as (out' & Hf' & ->).
  rewrite Hf in Hf'. injection Hf' as <-.
  destruct (views_outcome_searchable sort_values str_contains
              (sort_values false out) w Hs) as (found & _ & ->).
  eexists _, _. split; [reflexivity|].
  pose proof (sorted_strongly sort_values false out Hsort) as Hss.
  destruct (Hsort false out) as [Hp _].
  assert (Hfin : ∀ a : airport float64,
             a ∈ sort_values false out → ∃ q, elevation_ft a = fin q).
  { intros a Ha. rewrite Hp in Ha. eauto using filter_stage_fin. }
  split; [|split]; [|unfold categorize..].
  - by rewrite categorize_fst.
  - intros a l (b & [= -> ->] & _)%list_elem_of_fmap. done.
  - by apply categorize_ranks_sorted.
Qed.

Lemma final_frame_categories_witness :
  ∃ shown frame,
    script float_of_digits stable_sort_values never_contains
      connecticut_rows connecticut_all []
    = (shown, Ok frame)
    ∧ frame.*1 ≡ₚ connecticut_kept
    ∧ (∀ a l, (a, l) ∈ frame → l = elevation_level a)
    ∧ StronglySorted (λ l l', (level_rank l' ≤ level_rank l)%nat) frame.*2.
Proof.
  apply (final_frame_categories float_of_digits stable_sort_values
           never_contains connecticut_rows connecticut_all
           [fin (Z2Qc 60); fin (Z2Qc 1500); fin (Z2Qc 900)]).
  - apply stable_sort_values_contract.
  - reflexivity.
  - reflexivity.
  - by left.
Defined.

(** ** The line chart *)

Lemma keys_reverse_ascending (keys : list float64) :
  (∀ k, k ∈ keys → ∃ q, k = fin q) →
  StronglySorted (key_order false) keys →
  StronglySorted (key_order true) (reverse keys).
Proof.
  intros Hfin Hss. induction Hss as [|k keys Hk IH Hall]; [constructor|].
  rewrite reverse_cons. apply StronglySorted_app_2.
  - intros k1 k2 Hk1 ->%list_elem_of_singleton.
    apply elem_of_reverse in Hk1. rewrite reverse_involutive in Hk1.
    rewrite Forall_forall in Hall. specialize (Hall k1 Hk1).
    destruct (Hfin k) as [q ->]; [left|].
    destruct (Hfin k1) as [q1 ->]; [by right|]. done.
  - apply IH. intros k' Hk'. apply Hfin. by right.
  - repeat constructor.
Qed.

(** The line chart sorts the frame again, ascending: its elevations are
    those of the table read from the bottom up. *)
Theorem line_chart_ascending
    (sort_values : bool → list (airport float64) → list (airport float64))
    (df : list (airport cell)) (w : widgets) (out : list (airport float64)) :
  sort_contract sort_values →
  filter_stage df w = Ok out →
  elevation_col (sort_values true (sort_values false out))
  = reverse (elevation_col (sort_values false out)).
Proof.
  intros Hsort Hf.
  destruct (Hsort false out) as [Hp Hs].
  destruct (Hsort true (sort_values false out)) as [Hp' Hs'].
  apply (Sorted_unique (key_order true)).
  - unfold elevation_col. by apply (Sorted_fmap _ (row_order true)).
  - apply StronglySorted_Sorted, keys_reverse_ascending.
    + unfold elevation_col. intros k (a & -> & Ha)%list_elem_of_fmap.
      rewrite Hp in Ha. eauto using filter_stage_fin.
    + apply Sorted_StronglySorted; [apply _|].
      unfold elevation_col. by apply (Sorted_fmap _ (row_order false)).
  - unfold elevation_col. by rewrite Hp', reverse_Permutation.
Qed.

Lemma line_chart_ascending_witness :
  elevation_col
    (stable_sort_values true (stable_sort_values false connecticut_kept))
  = reverse (elevation_col (stable_sort_values false connecticut_kept)).
Proof.
  exact (line_chart_ascending stable_sort_values connecticut_frame
           connecticut_all connecticut_kept stable_sort_values_contract
           connecticut_filter_stage).
Defined.

(** ** The bar chart and the totals *)

Lemma total_count_sum (m : gmap string nat) :
  total_count m = sum_list (map_to_list m).*2.
Proof.
  unfold total_count. rewrite map_fold_foldr.
  induction (map_to_list m) as [|[k c] l IH]; [done|].
  simpl. by rewrite IH.
Qed.

Lemma groupby_type_size_keys {E} (data : list (airport E)) t :
  t ∈ (map_to_list (groupby_type_size data)).*1
  ↔ t ∈ unique (omap id ((λ a : airport E, type a) <$> data)).
Proof.
  rewrite elem_of_unique, list_elem_of_omap. split.
  - intros ([t' n] & -> & Hin)%list_elem_of_fmap. simpl.
    apply elem_of_map_to_list in Hin.
    rewrite groupby_type_size_lookup in Hin. unfold rows_of_type in Hin.
    destruct (filter _ data) as [|a l] eqn:Hf; [done|].
    assert (Ha : a ∈ filter (λ a : airport E, type a = Some t') data)
      by (rewrite Hf; left).
    apply list_elem_of_filter in Ha as [Ht Ha].
    exists (Some t'). split; [|done]. apply list_elem_of_fmap. by exists a.
  - intros (o & (a & -> & Ha)%list_elem_of_fmap & Ht). simpl in Ht.
    assert (Hin : a ∈ rows_of_type t data) by by apply list_elem_of_filter.
    apply list_elem_of_fmap.
    destruct (rows_of_type t data) as [|b l] eqn:Hf;
      [by apply elem_of_nil in Hin|].
    exists (t, S (length l)). split; [done|].
    apply elem_of_map_to_list. rewrite groupby_type_size_lookup.
    by rewrite Hf.
Qed.

#[local] Instance type_order_total :
  Total (λ x y : string * nat, String.leb x.1 y.1).
Proof.
  intros [s1 ?] [s2 ?]. simpl.
  destruct (String.leb_total s1 s2) as [->| ->]; [by left | by right].
Qed.

(** The bar and pie charts, "Total airports shown" and "Number of airport
    types" are computed separately.  The chart has one row per distinct
    type, in type order and without repetition, and their number is the
    number of types written: both leave a missing type out.  The counts add
    up to the number of rows that have a type: at most the total written, and
    the total itself exactly when no row shown lacks its type. *)
Theorem type_counts_agree {E} (data : list (airport E)) :
  sum_list (reset_index (groupby_type_size data)).*2
  = length (with_type data)
  ∧ (sum_list (reset_index (groupby_type_size data)).*2 ≤ length data)%nat
  ∧ (sum_list (reset_index (groupby_type_size data)).*2 = length data
     ↔ ∀ a : airport E, a ∈ data → notnull (type a))
  ∧ length (reset_index (groupby_type_size data))
    = nunique ((λ a : airport E, type a) <$> data)
  ∧ NoDup (reset_index (groupby_type_size data)).*1
  ∧ Sorted (λ x y : string * nat, String.leb x.1 y.1)
      (reset_index (groupby_type_size data))
  ∧ (∀ t n, (t, n) ∈ reset_index (groupby_type_size data)
            ↔ n = length (rows_of_type t data) ∧ (0 < n)%nat).
Proof.
  assert (Hperm : reset_index (groupby_type_size data)
                  ≡ₚ map_to_list (groupby_type_size data))
    by apply merge_sort_Permutation.
  assert (Hsum : sum_list (reset_index (groupby_type_size data)).*2
                 = length (with_type data))
    by (by rewrite Hperm, <-total_count_sum, groupby_type_size_total).
  split; [done|]. rewrite Hsum.
  split; [apply length_filter|]. split; [apply length_filter_all|].
  split; [|split; [|split]].
  - rewrite Hperm, <-(length_fmap fst). unfold nunique.
    apply Permutation_length, NoDup_Permutation.
    + apply NoDup_fst_map_to_list.
    + apply NoDup_unique.
    + apply groupby_type_size_keys.
  - rewrite Hperm. apply NoDup_fst_map_to_list.
  - apply (Sorted_merge_sort _).
  - intros t n. rewrite Hperm, elem_of_map_to_list, groupby_type_size_lookup.
    destruct (length (rows_of_type t data)); split.
    + done.
    + intros [-> ?]. lia.
    + intros [= <-]. split; [done | lia].
    + by intros [-> _].
Qed.

(** ** Which sections a run shows *)

Lemma sort_contract_nil_iff sort_values asc data :
  sort_contract sort_values → sort_values asc data = [] ↔ data = [].
Proof.
  intros Hsort. destruct (Hsort asc data) as [Hp _]. split; intros H.
  - rewrite H in Hp. by apply Permutation_nil_l in Hp.
  - subst data. by apply Permutation_nil_r in Hp.
Qed.

Lemma subheaders_app l k : subheaders (l ++ k) = subheaders l ++ subheaders k.
Proof. apply omap_app. Qed.

Lemma subheaders_samples (l : list (airport float64)) :
  subheaders
    ((λ a : airport float64, st_write_sample (name a) (municipality a)) <$> l)
  = [].
Proof. induction l as [|a l IH]; [done|]. by rewrite fmap_cons. Qed.

Lemma subheaders_before_search sort_values filtered w :
  subheaders (shown_before_search sort_values filtered w)
  = ("Types of Airports in " +:+ state w)
    :: (if bool_decide (filtered ≠ [])
        then [ "Airport Elevations (ft)";
               "Elevation Distribution by Type (Plotly)" ]
        else [])
    ++ ["Airport Table"].
Proof.
  unfold shown_before_search. rewrite !subheaders_app, subheaders_samples.
  by destruct (bool_decide (filtered ≠ [])).
Qed.

Lemma subheaders_by_search str_contains filtered w found :
  shown_by_search str_contains filtered w = Ok found →
  subheaders found
  = if bool_decide (search_term w ≠ "") then ["Search Results"] else [].
Proof.
  unfold shown_by_search. destruct (bool_decide _).
  - destruct (str_contains _); by intros [= <-].
  - by intros [= <-].
Qed.

Lemma subheaders_after_search filtered :
  subheaders (shown_after_search filtered)
  = if bool_decide (filtered ≠ []) then ["Map of Airports"]
    else ["No airports match the current filters."].
Proof.
  unfold shown_after_search. rewrite !subheaders_app.
  by destruct (bool_decide (filtered ≠ [])).
Qed.

Lemma nonempty_sorted sort_values data :
  sort_contract sort_values →
  bool_decide (sort_values false data ≠ []) = bool_decide (data ≠ []).
Proof.
  intros Hsort. apply bool_decide_ext.
  by rewrite (sort_contract_nil_iff sort_values false data Hsort).
Qed.

(** The sections of a run on a column that converts, by their titles and in
    their order: the bar chart of the types; the line chart and the box plot
    when some row passed the filters; the table; and then, unless the search
    box holds a pattern that does not compile, the search results when the
    box is not empty, and the map, or the "no airports" line when no row
    passed.  The three statistics lines come before all of them.  The run
    reaches its end exactly when the search box is empty or its pattern
    compiles; otherwise it stops after the table. *)
Theorem sections_shown
    (float_of_string : string → option float64)
    (sort_values : bool → list (airport float64) → list (airport float64))
    (str_contains : string → result (string → bool))
    (rows : list (csv_row cell)) (w : widgets) (col : list float64)
    (out : list (airport float64)) :
  sort_contract sort_values →
  astype_float float_of_string (elevation_col (load rows)) = Ok col →
  filter_stage (assign_elevation (load rows) col) w = Ok out →
  ∃ shown outcome,
    script float_of_string sort_values str_contains rows w []
    = (shown, outcome)
    ∧ subheaders shown
      = ("Types of Airports in " +:+ state w)
        :: (if bool_decide (out ≠ [])
            then [ "Airport Elevations (ft)";
                   "Elevation Distribution by Type (Plotly)" ]
            else [])
        ++ "Airport Table"
        :: (if bool_decide (searchable str_contains w)
            then (if bool_decide (search_term w ≠ "")
                  then ["Search Results"] else [])
                 ++ (if bool_decide (out ≠ [])
                     then ["Map of Airports"]
                     else ["No airports match the current filters."])
            else [])
    ∧ (∃ before lo hi avg after,
         shown = before ++ st_write_ft "Minimum Elevation" lo
                           :: st_write_ft "Maximum Elevation" hi
                           :: st_write_ft "Average Elevation" avg :: after
         ∧ subheaders before = [])
    ∧ ((∃ frame, outcome = Ok frame) ↔ searchable str_contains w).
Proof.
  intros Hsort Hcol Hf.
  destruct (script_converted float_of_string sort_values str_contains rows w
              col Hcol) as (out' & Hf' & ->).
  rewrite Hf in Hf'. injection Hf' as <-.
  eexists _, _. split; [reflexivity|].
  assert (Hstats : ∀ rest,
    ∃ before lo hi avg after,
      widgets_shown (assign_elevation (load rows) col)
        ++ shown_before_search sort_values (sort_values false out) w ++ rest
      = before ++ st_write_ft "Minimum Elevation" lo
                  :: st_write_ft "Maximum Elevation" hi
                  :: st_write_ft "Average Elevation" avg :: after
      ∧ subheaders before = []).
  { intros rest. eexists (widgets_shown _), _, _, _, _.
    split; [|reflexivity]. unfold shown_before_search.
    by rewrite <-!app_assoc. }
  destruct (decide (searchable str_contains w)) as [Hs|Hs].
  - destruct (views_outcome_searchable sort_values str_contains
                (sort_values false out) w Hs) as (found & Hfound & ->).
    cbn [fst snd]. rewrite (bool_decide_eq_true_2 _ Hs).
    split; [|split].
    + rewrite !subheaders_app, subheaders_before_search,
        (subheaders_by_search _ _ _ _ Hfound), subheaders_after_search,
        (nonempty_sorted sort_values out Hsort).
      cbn [subheaders widgets_shown omap list_omap app].
      by rewrite <-app_assoc.
    + apply Hstats.
    + split; [done | eauto].
  - destruct (views_outcome_unsearchable sort_values str_contains
                (sort_values false out) w Hs) as (e' & _ & _ & ->).
    cbn [fst snd]. rewrite (bool_decide_eq_false_2 _ Hs).
    split; [|split].
    + rewrite !subheaders_app, subheaders_before_search,
        (nonempty_sorted sort_values out Hsort).
      cbn [subheaders widgets_shown omap list_omap app]. done.
    + destruct (Hstats []) as (before & lo & hi & avg & after & Heq & Hb).
      rewrite app_nil_r in Heq. by exists before, lo, hi, avg, after.
    + split; [by intros [? ?] | done].
Qed.

Lemma sections_shown_witness :
  ∃ shown outcome,
    script float_of_digits stable_sort_values star_rejecting parsable_rows
      star_search []
    = (shown, outcome)
    ∧ subheaders shown
      = [ "Types of Airports in Vermont";
          "Airport Elevations (ft)";
          "Elevation Distribution by Type (Plotly)";
          "Airport Table" ]
    ∧ (∃ before lo hi avg after,
         shown = before ++ st_write_ft "Minimum Elevation" lo
                           :: st_write_ft "Maximum Elevation" hi
                           :: st_write_ft "Average Elevation" avg :: after
         ∧ subheaders before = [])
    ∧ ((∃ frame, outcome = Ok frame) ↔ searchable star_rejecting star_search).
Proof.
  destruct (sections_shown float_of_digits stable_sort_values star_rejecting
              parsable_rows star_search [fin (Z2Qc 488); fin (Z2Qc 1200)]
              [ set_elevation
                  (map_state (csv_field "Charlie Field" "US-VT" (CStr "1200")))
                  (fin (Z2Qc 1200)) ]
              stable_sort_values_contract eq_refl eq_refl)
    as (shown & outcome & Heq & Hsub & Hstats & Hout).
  exists shown, outcome. split; [exact Heq|]. split; [|by split].
  rewrite Hsub. reflexivity.
Defined.

(** ** Where the rows of the final frame come from *)

Section Provenance.
Variable float_of_string : string → option float64.

Lemma astype_float_Ok col xs :
  astype_float float_of_string col = Ok xs →
  Forall2 (λ c x, cell_to_float float_of_string c = Ok x) col xs.
Proof.
  revert xs. induction col as [|c col IH]; simpl; intros xs H.
  - injection H as <-. constructor.
  - destruct (cell_to_float float_of_string c) as [x|] eqn:Hc; [|done].
    destruct (astype_float float_of_string col) as [xs'|]; [|done].
    injection H as <-. constructor; auto.
Qed.

Lemma assign_elevation_elem (df : list (airport cell)) xs (a : airport cell) :
  Forall2 (λ c x, cell_to_float float_of_string c = Ok x)
          (elevation_col df) xs →
  a ∈ assign_elevation df xs →
  ∃ (b : airport cell) x,
    b ∈ df ∧ cell_to_float float_of_string (elevation_ft b) = Ok x
    ∧ a = set_elevation b (CNum x).
Proof.
  unfold assign_elevation, elevation_col. revert xs.
  induction df as [|b df IH]; intros xs Hall Ha.
  - by apply elem_of_nil in Ha.
  - rewrite fmap_cons in Hall.
    apply Forall2_cons_inv_l in Hall as (x & xs' & Hx & Hall & ->).
    simpl in Ha. apply elem_of_cons in Ha as [->|Ha].
    + exists b, x. split; [left | done].
    + destruct (IH xs' Hall Ha) as (b' & x' & ? & ? & ?).
      exists b', x'. split; [by right | done].
Qed.

(** The frame the coercion step leaves holds the rows it was given, each
    with its elevation cell either untouched or replaced by its [float]. *)
Lemma coerce_elevation_rows df log log' df' (a : airport cell) :
  coerce_elevation float_of_string df log = (log', Ok df') →
  a ∈ df' →
  ∃ b : airport cell,
    b ∈ df ∧ same_record b a ∧ State a = State b
    ∧ (elevation_ft a = elevation_ft b
       ∨ ∃ x, cell_to_float float_of_string (elevation_ft b) = Ok x
              ∧ elevation_ft a = CNum x).
Proof.
  intros Hc Ha.
  destruct (astype_float float_of_string (elevation_col df)) as [xs|e] eqn:Hx.
  - rewrite (coerce_elevation_Ok float_of_string df xs log Hx) in Hc.
    injection Hc as _ <-.
    destruct (assign_elevation_elem df xs a (astype_float_Ok _ _ Hx) Ha)
      as (b & x & Hb & Hbx & ->).
    exists b. split; [done|]. split; [by repeat split|]. split; [done|].
    right. by exists x.
  - rewrite (coerce_elevation_Raise float_of_string df e log Hx) in Hc.
    injection Hc as _ <-. exists a. split; [done|].
    split; [by repeat split|]. split; [done | by left].
Qed.
End Provenance.

Lemma page_Ok sort_values str_contains df w log log' frame :
  page sort_values str_contains df w log = (log', Ok frame) →
  ∃ out, filter_stage df w = Ok out
         ∧ frame = categorize (sort_values false out).
Proof.
  intros Hp. destruct log as [|e log]; [|done].
  rewrite page_from_start in Hp.
  destruct (filter_stage df w) as [out|e] eqn:Hf.
  - rewrite (views_shown _ _ _ _ out _ Hf) in Hp. exists out. split; [done|].
    unfold views_outcome in Hp.
    destruct (shown_by_search _ _ _); simpl in Hp; [|done].
    by injection Hp as _ <-.
  - by rewrite (views_on_Raise _ _ _ _ e _ Hf) in Hp.
Qed.

(** A run that ends normally returns a frame made of rows of the file: every
    row of it agrees with some row of the file on every column but the
    elevation, carries the state name the table gives for that row's region
    code, and holds as elevation the [float] of that row's elevation cell.
    The script alters no record and invents none. *)
Theorem final_frame_provenance
    (float_of_string : string → option float64)
    (sort_values : bool → list (airport float64) → list (airport float64))
    (str_contains : string → result (string → bool))
    (rows : list (csv_row cell)) (w : widgets) (log log' : list event)
    (frame : list (airport float64 * level)) :
  sort_contract sort_values →
  script float_of_string sort_values str_contains rows w log
  = (log', Ok frame) →
  ∀ (a : airport float64) (l : level),
    (a, l) ∈ frame →
    ∃ r : csv_row cell,
      r ∈ rows ∧ same_record r a
      ∧ State a = iso_region r ≫= (state_names !!.)
      ∧ cell_to_float float_of_string (elevation_ft r) = Ok (elevation_ft a).
Proof.
  intros Hsort Hs a l Hal.
  unfold script in Hs. unfold mbind at 1 in Hs. unfold run_bind, bind at 1 in Hs.
  destruct (coerce_elevation_returns float_of_string (load rows) log)
    as (log1 & df' & Hc).
  rewrite Hc in Hs.
  apply page_Ok in Hs as (out & Hf & ->).
  unfold categorize in Hal.
  apply list_elem_of_fmap in Hal as (a' & [= <- _] & Ha).
  destruct (Hsort false out) as [Hp _]. rewrite Hp in Ha.
  apply filter_stage_Ok in Hf as (kept & Hk & ->).
  unfold dropna_coords, filter_type in Ha.
  apply list_elem_of_filter in Ha as [_ Ha].
  apply list_elem_of_filter in Ha as [_ Ha].
  apply (filter_elevation_Ok _ _ _ Hk) in Ha as [Ha _].
  apply filter_scheduled_elem in Ha as [Ha _].
  apply list_elem_of_filter in Ha as [_ Ha].
  destruct (coerce_elevation_rows float_of_string _ _ _ _ _ Hc Ha)
    as (b & Hb & Hsame & HState & Helev).
  apply load_spec in Hb as (code & display & Hrow & _ & _ & Hcode & Hdisp & HSb).
  exists (row b). split; [done|].
  destruct a as [[] ?]. unfold same_record, as_cells, set_elevation in *.
  simpl in *. split; [done|]. split.
  - rewrite HState, HSb, Hcode. simpl. by rewrite Hdisp.
  - destruct Helev as [<-|(x & Hx & [= <-])]; done.
Qed.

Lemma final_frame_provenance_witness :
  ∃ r : csv_row cell,
    r ∈ parsable_rows
    ∧ same_record r
        (set_elevation
           (map_state (csv_field "Charlie Field" "US-VT" (CStr "1200")))
           (fin (Z2Qc 1200)))
    ∧ State (set_elevation
               (map_state (csv_field "Charlie Field" "US-VT" (CStr "1200")))
               (fin (Z2Qc 1200)))
      = iso_region r ≫= (state_names !!.)
    ∧ cell_to_float float_of_digits (elevation_ft r)
      = Ok (elevation_ft
              (set_elevation
                 (map_state (csv_field "Charlie Field" "US-VT" (CStr "1200")))
                 (fin (Z2Qc 1200)))).
Proof.
  apply (final_frame_provenance float_of_digits stable_sort_values
           never_contains parsable_rows vermont_widgets []
           (script float_of_digits stable_sort_values never_contains
              parsable_rows vermont_widgets []).1
           [ (set_elevation
                (map_state (csv_field "Charlie Field" "US-VT" (CStr "1200")))
                (fin (Z2Qc 1200)), Medium) ]
           stable_sort_values_contract)
    with (l := Medium).
  - by vm_compute.
  - left.
Defined.
